(** * The "Writing efficient DOcplex code" notebook

    A shallow embedding of the notebook's own code
    (examples/mp/jupyter/efficient.ipynb): the scoped timer [ContextTimer],
    the helper [fib], the benchmark builders [build_bench_model1] ...
    [build_bench_model7] and the performance-sampling loop.

    The notebook is a client of two black boxes, the wall clock and the
    DOcplex modeling library.  Both are modelled by what the notebook can
    observe of them:
    - the clock is an arbitrary sequence of readings;
    - a library call either raises (an arbitrary, world-supplied schedule of
      failures decides) or records the request it was given: the variables,
      the terms of each linear expression in the order they were passed, the
      constraints and the objective.  What the solver does with a model is
      outside the notebook and outside this file. *)

From Stdlib Require Import ZArith QArith Qround Lia String.
From stdpp Require Import base gmap list strings pretty.
From Equations Require Import Equations.

Open Scope Z_scope.

(** ** Python floats

    [time.time()] returns a binary64 float and the timer computes with it.
    Nothing below depends on how floats round, so the arithmetic is an
    interface; [exact_arith] below instantiates it with rationals to run
    the code on concrete inputs. *)

Class PyFloat := {
  float : Type;
  float_of_int : Z → float;            (* an int operand coerced to float *)
  fsub : float → float → float;        (* x - y *)
  fmul : float → float → float;        (* x * y *)
  fceil : float → float;               (* math.ceil(x) *)
  fmt_0f : float → string;             (* '{:.0f}'.format(x) *)
}.

(** ** Exceptions and the values handed to [__exit__] *)

Record exn := Exn { exc_type : string; exc_arg : string }.

Definition KeyError (key : string) : exn := Exn "KeyError" key.
Definition IndexError : exn := Exn "IndexError" "list index out of range".
Definition AttributeError (attr : string) : exn := Exn "AttributeError" attr.
Definition DOcplexException (what : string) : exn := Exn "DOcplexException" what.

Inductive PyVal :=
| PyNone
| PyBool (b : bool)
| PyStr (s : string)
| PyExc (e : exn).

Definition truthy (v : PyVal) : bool :=
  match v with
  | PyNone => false
  | PyBool b => b
  | PyStr s => negb (String.eqb s "")
  | PyExc _ => true
  end.

(** [sys.exc_info()] of a pending exception: type, value, traceback. *)
Definition exc_info (e : exn) : list PyVal :=
  [PyStr (exc_type e); PyExc e; PyStr "traceback"].

(** Objects are named by their position in a store. *)
Abbreviation handle := nat (only parsing).

(** The outcome of running a piece of code. *)
Inductive Res (A : Type) :=
| Ok (a : A)
| Raise (e : exn).
Arguments Ok {A} a.
Arguments Raise {A} e.

(** ** What the modeling library is asked to hold *)

Inductive VarType := BinaryVarType | IntegerVarType | ContinuousVarType.

Record Var := {
  var_index : nat;                (* position of the variable in its model *)
  var_name : option string;
  var_type : VarType;
}.

(** A linear expression: the terms [(variable, coefficient)] in the order
    the notebook supplied them.  Its value as a linear form is [coef]. *)
Definition LinearExpr := list (Var * Z).

Inductive Sense := SenseLE | SenseEQ | SenseGE.

Record LinearConstraint := {
  ct_lhs : LinearExpr;
  ct_sense : Sense;
  ct_rhs : Z;
  ct_name : option string;
}.

Inductive ObjSense := Minimize | Maximize.

Inductive ModelClass := ClsModel | ClsAdvModel.

Record ModelObj := {
  cls : ModelClass;
  name : string;
  ignore_names : bool;
  checker : option string;
  variables : list Var;
  constraints : list LinearConstraint;
  objective : option (ObjSense * LinearExpr);
  ended : bool;                   (* [end()] has released the engine *)
}.

Definition set_variables (vs : list Var) (md : ModelObj) : ModelObj :=
  {| cls := cls md; name := name md; ignore_names := ignore_names md;
     checker := checker md; variables := vs; constraints := constraints md;
     objective := objective md; ended := ended md |}.

Definition set_constraints (cs : list LinearConstraint) (md : ModelObj) : ModelObj :=
  {| cls := cls md; name := name md; ignore_names := ignore_names md;
     checker := checker md; variables := variables md; constraints := cs;
     objective := objective md; ended := ended md |}.

Definition set_objective (o : option (ObjSense * LinearExpr)) (md : ModelObj) : ModelObj :=
  {| cls := cls md; name := name md; ignore_names := ignore_names md;
     checker := checker md; variables := variables md;
     constraints := constraints md; objective := o; ended := ended md |}.

(** What [end] leaves of a model: its settings and nothing of its content,
    as in a new model. *)
Definition end_model (md : ModelObj) : ModelObj :=
  {| cls := cls md; name := name md; ignore_names := ignore_names md;
     checker := checker md; variables := []; constraints := [];
     objective := None; ended := true |}.

(** The coefficient of the variable of index [v] in [e]: repeated mentions
    of a variable add up. *)
Fixpoint coef (e : LinearExpr) (v : nat) : Z :=
  match e with
  | [] => 0
  | (x, c) :: e' => (if decide (var_index x = v) then c else 0) + coef e' v
  end.

(** The variables an expression mentions, in order. *)
Definition mentions (e : LinearExpr) : list nat := (λ t, var_index t.1) <$> e.

(** The terms of a scalar product as [scal_prod] stores them: a pair whose
    coefficient is zero is passed over. *)
Definition scal_terms (terms : list Var) (coefs : list Z) : LinearExpr :=
  filter (λ t, t.2 ≠ 0) (zip terms coefs).

(** The mathematical content of a model: the types of its variables, each
    constraint as (coefficient row, sense, right-hand side) and the objective
    as (sense, coefficient row).  Names, the class and the option flags are
    left out. *)
Definition row (n : nat) (e : LinearExpr) : list Z := coef e <$> seq 0 n.

Definition in_range (n : nat) (e : LinearExpr) : bool :=
  forallb (λ v, bool_decide (v < n)%nat) (mentions e).

Definition math_ct (n : nat) (c : LinearConstraint) : list Z * Sense * Z :=
  (row n (ct_lhs c), ct_sense c, ct_rhs c).

Definition math_model (md : ModelObj)
  : list VarType * list (list Z * Sense * Z) * option (ObjSense * list Z) :=
  let n := length (variables md) in
  (var_type <$> variables md,
   math_ct n <$> constraints md,
   (λ o, (o.1, row n o.2)) <$> objective md).

(** Every expression of the model only mentions variables of the model, so
    that [math_model] loses nothing. *)
Definition closed_model (md : ModelObj) : bool :=
  let n := length (variables md) in
  forallb (λ c, in_range n (ct_lhs c)) (constraints md)
  && from_option (λ o, in_range n o.2) true (objective md).

(** ** The helper [fib] *)

Equations? fib (n : Z) : Z by wf (Z.to_nat n) lt :=
  fib n with Z_le_gt_dec n 2 => {
    | left _ := 1;
    | right _ := fib (n - 1) + fib (n - 2) }.
Proof. all: lia. Qed.

(** The Fibonacci numbers, F(0) = 0, F(1) = F(2) = 1. *)
Fixpoint fibonacci (k : nat) : Z :=
  match k with
  | O => 0
  | S k' => match k' with
            | O => 1
            | S k'' => fibonacci k' + fibonacci k''
            end
  end.

Section Notebook.
Context {F : PyFloat}.

(** ** The world the notebook runs in *)

(** An instance of [ContextTimer]; [msecs] does not exist before the first
    [__exit__]. *)
Record TimerObj := {
  msg : string;
  start : float;
  msecs : option float;
}.

Record World := {
  clock : nat → float;            (* the readings time.time() will give *)
  ticks : nat;                    (* readings taken so far *)
  stdout : list string;           (* what print has written, one entry per call *)
  timers : list TimerObj;         (* the ContextTimer objects, by handle *)
  models : list ModelObj;         (* the library's models, by handle *)
  faults : list (option exn);     (* outcome of the library's next calls *)
  raised : list exn;              (* the exceptions the library has raised *)
}.

Definition set_ticks (n : nat) (w : World) : World :=
  {| clock := clock w; ticks := n; stdout := stdout w; timers := timers w;
     models := models w; faults := faults w; raised := raised w |}.

Definition set_stdout (out : list string) (w : World) : World :=
  {| clock := clock w; ticks := ticks w; stdout := out; timers := timers w;
     models := models w; faults := faults w; raised := raised w |}.

Definition set_timers (ts : list TimerObj) (w : World) : World :=
  {| clock := clock w; ticks := ticks w; stdout := stdout w; timers := ts;
     models := models w; faults := faults w; raised := raised w |}.

Definition set_models (ms : list ModelObj) (w : World) : World :=
  {| clock := clock w; ticks := ticks w; stdout := stdout w; timers := timers w;
     models := ms; faults := faults w; raised := raised w |}.

Definition set_faults (fs : list (option exn)) (w : World) : World :=
  {| clock := clock w; ticks := ticks w; stdout := stdout w; timers := timers w;
     models := models w; faults := fs; raised := raised w |}.

Definition set_raised (es : list exn) (w : World) : World :=
  {| clock := clock w; ticks := ticks w; stdout := stdout w; timers := timers w;
     models := models w; faults := faults w; raised := es |}.

(** ** Computations: state passing with exceptions *)

Definition M (A : Type) : Type := World → Res A * World.

#[global] Instance M_ret : MRet M := λ A a w, (Ok a, w).

#[global] Instance M_bind : MBind M := λ A B f p w,
  match p w with
  | (Ok a, w') => f a w'
  | (Raise e, w') => (Raise e, w')
  end.

(** [raise e] in the notebook's own code. *)
Definition throw {A} (e : exn) : M A := λ w, (Raise e, w).

(** Draining a generator or a comprehension, and a [for] statement. *)
Fixpoint mapM {A B} (f : A → M B) (l : list A) : M (list B) :=
  match l with
  | [] => mret []
  | x :: l' => y ← f x; ys ← mapM f l'; mret (y :: ys)
  end.

Fixpoint for_ {A} (l : list A) (body : A → M ()) : M () :=
  match l with
  | [] => mret ()
  | x :: l' => body x;; for_ l' body
  end.

(** A [for] statement that updates the variables [S] of its scope. *)
Fixpoint foldM {A S} (body : S → A → M S) (s : S) (l : list A) : M S :=
  match l with
  | [] => mret s
  | x :: l' => s' ← body s x; foldM body s' l'
  end.

(** ** Python built-ins *)

Definition range (n : Z) : list Z := seqZ 0 n.

Definition enumerate {A} (l : list A) : list (Z * A) :=
  imap (λ i x, (Z.of_nat i, x)) l.

(** [{key: value for ...}]: later items override earlier ones. *)
Definition dict `{Countable K} {V} (items : list (K * V)) : gmap K V :=
  foldl (λ d kv, <[kv.1 := kv.2]> d) ∅ items.

(** [d[key]] *)
Definition getitem `{Countable K} {V} (d : gmap K V) (key : K) : M V :=
  match d !! key with
  | Some v => mret v
  | None => throw (KeyError "")
  end.

(** [l[i]], with Python's negative indices. *)
Definition list_getitem {A} (l : list A) (i : Z) : M A :=
  let n := Z.of_nat (length l) in
  let j := if decide (i < 0) then i + n else i in
  if decide (0 ≤ j < n) then
    match l !! Z.to_nat j with
    | Some x => mret x
    | None => throw IndexError
    end
  else throw IndexError.

Definition time_time : M float := λ w,
  (Ok (clock w (ticks w)), set_ticks (S (ticks w)) w).

Definition print (line : string) : M () := λ w,
  (Ok (), set_stdout (stdout w ++ [line]) w).

(** ** The class [ContextTimer] *)

Definition set_start (t : float) (o : TimerObj) : TimerObj :=
  {| msg := msg o; start := t; msecs := msecs o |}.

Definition set_msecs (ms : float) (o : TimerObj) : TimerObj :=
  {| msg := msg o; start := start o; msecs := Some ms |}.

(** [self.attr] and [self.attr = v] on a timer.  Handles only come from
    [ContextTimer], and objects are never freed. *)
Definition getattr {A} (self : handle) (attr : TimerObj → A) : M A := λ w,
  match timers w !! self with
  | Some o => (Ok (attr o), w)
  | None => (Raise (Exn "ReferenceError" "ContextTimer"), w)
  end.

Definition getattr_msecs (self : handle) : M float :=
  ms ← getattr self msecs;
  match ms with
  | Some x => mret x
  | None => throw (AttributeError "msecs")
  end.

Definition setattr (self : handle) (upd : TimerObj → TimerObj) : M () := λ w,
  match timers w !! self with
  | Some o => (Ok (), set_timers (<[self := upd o]> (timers w)) w)
  | None => (Raise (Exn "ReferenceError" "ContextTimer"), w)
  end.

(** [ContextTimer(msg)]: a new object, then [__init__]. *)
Definition ContextTimer (msg0 : string) : M handle := λ w,
  (Ok (length (timers w)),
   set_timers (timers w ++ [{| msg := msg0; start := float_of_int 0; msecs := None |}]) w).

Definition __enter__ (self : handle) : M handle :=
  t ← time_time;
  setattr self (set_start t);;
  mret self.

Definition exit_message (m : string) (ms : float) : string :=
  "<-- " +:+ m +:+ ",  time: " +:+ fmt_0f ms +:+ " ms".

Definition __exit__ (self : handle) (args : list PyVal) : M PyVal :=
  now ← time_time;
  st ← getattr self start;
  let elapsed := fsub now st in
  setattr self (set_msecs (fceil (fmul (float_of_int 1000) elapsed)));;
  m ← getattr self msg;
  ms ← getattr_msecs self;
  print (exit_message m ms);;
  mret PyNone.

(** [with mgr as value: body].  The result is the target of [as] and what
    the block computed, [None] when [__exit__] swallowed an exception. *)
Definition with_as {A} (mgr : handle) (body : handle → M A)
  : M (handle * option A) := λ w,
  match __enter__ mgr w with
  | (Raise e, w1) => (Raise e, w1)
  | (Ok value, w1) =>
    match body value w1 with
    | (Ok a, w2) =>
      match __exit__ mgr [PyNone; PyNone; PyNone] w2 with
      | (Ok _, w3) => (Ok (value, Some a), w3)
      | (Raise e, w3) => (Raise e, w3)
      end
    | (Raise e, w2) =>
      match __exit__ mgr (exc_info e) w2 with
      | (Ok ret, w3) =>
        if truthy ret then (Ok (value, None), w3) else (Raise e, w3)
      | (Raise e', w3) => (Raise e', w3)
      end
    end
  end.

(** [with ContextTimer(msg) as tt: body] *)
Definition with_ContextTimer {A} (msg0 : string) (body : handle → M A)
  : M (handle * option A) :=
  mgr ← ContextTimer msg0;
  with_as mgr body.

(** The first cell: timing fibonacci(30). *)
Definition fib_cell : M () :=
  with_ContextTimer "fibonacci 30" (λ _,
    let n := 30 in
    let f := fib n in
    print ("fibonacci(" +:+ pretty n +:+ ") = " +:+ pretty f));;
  mret ().

(** ** The modeling library *)

(** The library raises [e]. *)
Definition lib_raise {A} (e : exn) : M A := λ w,
  (Raise e, set_raised (raised w ++ [e]) w).

(** Every entry into the library first consumes one entry of the schedule
    of failures; an empty schedule means no failure. *)
Definition lib_call {A} (body : M A) : M A := λ w,
  match faults w with
  | [] => body w
  | None :: fs => body (set_faults fs w)
  | Some e :: fs => lib_raise e (set_faults fs w)
  end.

(** A method of the model [m], once entered. *)
Definition method {A} (m : handle) (f : ModelObj → A * ModelObj) : M A := λ w,
  match models w !! m with
  | Some md =>
    let '(a, md') := f md in
    (Ok a, set_models (<[m := md']> (models w)) w)
  | None => lib_raise (DOcplexException "no such model") w
  end.

Definition on_model {A} (m : handle) (f : ModelObj → A * ModelObj) : M A :=
  lib_call (method m f).

Definition new_model (c : ModelClass) (nm : string) (ign : bool)
    (chk : option string) : M handle :=
  lib_call (λ w,
    (Ok (length (models w)),
     set_models (models w ++
       [{| cls := c; name := nm; ignore_names := ign; checker := chk;
           variables := []; constraints := []; objective := None;
           ended := false |}]) w)).

(** [Model(name=..., ignore_names=..., checker=...)] and the same for
    [AdvModel]; an absent [ignore_names] is [False]. *)
Definition Model (nm : string) (ign : bool) (chk : option string) : M handle :=
  new_model ClsModel nm ign chk.

Definition AdvModel (nm : string) (ign : bool) (chk : option string) : M handle :=
  new_model ClsAdvModel nm ign chk.

(** One binary variable per key, named [name_key] unless names are ignored. *)
Definition new_vars (md : ModelObj) (keys : list Z) (nm : string) : list Var :=
  imap (λ i key,
    {| var_index := length (variables md) + i;
       var_name := if ignore_names md then None
                   else Some (nm +:+ "_" +:+ pretty key);
       var_type := BinaryVarType |}) keys.

Definition m_binary_var_dict (m : handle) (keys : list Z) (nm : string)
  : M (gmap Z Var) :=
  on_model m (λ md,
    let vs := new_vars md keys nm in
    (dict (zip keys vs), set_variables (variables md ++ vs) md)).

Definition m_binary_var_list (m : handle) (keys : list Z) (nm : string)
  : M (list Var) :=
  on_model m (λ md,
    let vs := new_vars md keys nm in
    (vs, set_variables (variables md ++ vs) md)).

(** [var * number] *)
Definition var_times (v : Var) (c : Z) : M LinearExpr :=
  lib_call (mret [(v, c)]).

(** [m.sum(items)] where [items] is a generator: the library drains it
    after it has been entered, so the code that produces the items runs
    inside the call. *)
Definition m_sum (m : handle) (items : M (list LinearExpr)) : M LinearExpr :=
  lib_call (xs ← items; method m (λ md, (concat xs, md))).

(** [m.scal_prod(terms, coefs)]: the terms with a zero coefficient are left
    out of the expression. *)
Definition m_scal_prod (m : handle) (terms : list Var) (coefs : list Z)
  : M LinearExpr :=
  on_model m (λ md, (scal_terms terms coefs, md)).

(** [m.scal_prod_vars_all_different(terms, coefs)], which trusts its caller
    that no variable is repeated and stores the pairs as they come. *)
Definition m_scal_prod_vars_all_different (m : handle) (terms : list Var)
    (coefs : list Z) : M LinearExpr :=
  on_model m (λ md, (zip terms coefs, md)).

(** [expr >= number] *)
Definition expr_ge (e : LinearExpr) (rhs : Z) : M LinearConstraint :=
  lib_call (mret {| ct_lhs := e; ct_sense := SenseGE; ct_rhs := rhs;
                    ct_name := None |}).

Definition named (md : ModelObj) (ct : LinearConstraint) (ctname : string)
  : LinearConstraint :=
  {| ct_lhs := ct_lhs ct; ct_sense := ct_sense ct; ct_rhs := ct_rhs ct;
     ct_name := if ignore_names md then None else Some ctname |}.

(** [m.add(ct, ctname)] *)
Definition m_add (m : handle) (ct : LinearConstraint) (ctname : string)
  : M LinearConstraint :=
  on_model m (λ md,
    let c := named md ct ctname in
    (c, set_constraints (constraints md ++ [c]) md)).

(** [m.add_constraints(cts, names)] where [cts] is a generator, drained
    inside the call like the argument of [m_sum]. *)
Definition m_add_constraints (m : handle) (cts : M (list LinearConstraint))
    (names : list string) : M (list LinearConstraint) :=
  lib_call (xs ← cts;
            method m (λ md,
              let cs := zip_with (named md) xs names in
              (cs, set_constraints (constraints md ++ cs) md))).

(** [m.minimize(expr)] *)
Definition m_minimize (m : handle) (e : LinearExpr) : M () :=
  on_model m (λ md, ((), set_objective (Some (Minimize, e)) md)).

(** [m.end()]: the model is emptied and must not be used any more. *)
Definition m_end (m : handle) : M () :=
  on_model m (λ md, ((), end_model md)).

(** ** The benchmark builders

    The notebook runs on Python 2: [range(size)] is a list, and the loop
    variable of a list comprehension stays bound after it (no later code
    reads one). *)

Definition build_bench_model1 (size : Z) : M handle :=
  m ← Model "bench1" false None;
  let rsize := range size in
  ys ← m_binary_var_dict m rsize "y";
  let k := dict (i ← rsize; j ← rsize; [((i, j), i + (i + j) `mod` 3)]) in
  for_ rsize (λ i,
    lhs ← m_sum m (mapM (λ j, yi ← getitem ys i;
                              kij ← getitem k (i, j);
                              var_times yi kij) rsize);
    ct ← expr_ge lhs i;
    m_add m ct ("ct_" +:+ pretty i);;
    mret ());;
  let rsize1 := (λ i, i + 1) <$> rsize in
  obj ← m_sum m (mapM (λ k, yk ← getitem ys k;
                            rk ← list_getitem rsize k;
                            var_times yk rk) rsize);
  m_minimize m obj;;
  mret m.

Definition build_bench_model2 (size : Z) : M handle :=
  m ← Model "bench2" false None;
  let rsize := range size in
  ys ← m_binary_var_dict m rsize "y";
  let k := dict (i ← rsize; j ← rsize; [((i, j), i + (i + j) `mod` 3)]) in
  for_ rsize (λ i,
    vars ← mapM (λ i1, getitem ys i1) rsize;
    coefs ← mapM (λ j, getitem k (i, j)) rsize;
    lhs ← m_scal_prod m vars coefs;
    ct ← expr_ge lhs i;
    m_add m ct ("ct_" +:+ pretty i);;
    mret ());;
  let rsize1 := (λ i, i + 1) <$> rsize in
  vars ← mapM (λ k, getitem ys k) rsize;
  obj ← m_scal_prod m vars rsize1;
  m_minimize m obj;;
  mret m.

Definition build_bench_model21 (size : Z) : M handle :=
  m ← Model "bench2.1" false None;
  let rsize := range size in
  ys ← m_binary_var_list m rsize "y";
  let k := dict (i ← rsize; j ← rsize; [((i, j), i + (i + j) `mod` 3)]) in
  for_ rsize (λ i,
    coefs ← mapM (λ j, getitem k (i, j)) rsize;
    lhs ← m_scal_prod m ys coefs;
    ct ← expr_ge lhs i;
    m_add m ct ("ct_" +:+ pretty i);;
    mret ());;
  let rsize1 := (λ i, i + 1) <$> rsize in
  obj ← m_scal_prod m ys rsize1;
  m_minimize m obj;;
  mret m.

Definition build_bench_model3 (size : Z) : M handle :=
  m ← Model "bench3" false None;
  let rsize := range size in
  ys ← m_binary_var_list m rsize "y";
  let k := dict (i ← rsize; j ← rsize; [((i, j), i + (i + j) `mod` 3)]) in
  m_add_constraints m
    (mapM (λ i, coefs ← mapM (λ j, getitem k (i, j)) rsize;
                lhs ← m_scal_prod m ys coefs;
                expr_ge lhs i) rsize)
    ((λ i, "ct_" +:+ pretty i) <$> rsize);;
  let rsize1 := (λ i, i + 1) <$> rsize in
  obj ← m_scal_prod m ys rsize1;
  m_minimize m obj;;
  mret m.

Definition build_bench_model4 (size : Z) : M handle :=
  m ← Model "bench4" false None;
  let rsize := range size in
  ys ← m_binary_var_list m rsize "y";
  m_add_constraints m
    (mapM (λ i, lhs ← m_scal_prod m ys ((λ j, i + (i + j) `mod` 3) <$> rsize);
                expr_ge lhs i) rsize)
    ((λ i, "ct_" +:+ pretty i) <$> rsize);;
  obj ← m_scal_prod m ys ((λ i, i + 1) <$> rsize);
  m_minimize m obj;;
  mret m.

Definition build_bench_model5 (size : Z) : M handle :=
  m ← Model "bench5" true None;
  let rsize := range size in
  ys ← m_binary_var_list m rsize "y";
  m_add_constraints m
    (mapM (λ i, lhs ← m_scal_prod m ys ((λ j, i + (i + j) `mod` 3) <$> rsize);
                expr_ge lhs i) rsize)
    ((λ i, "ct_" +:+ pretty i) <$> rsize);;
  obj ← m_scal_prod m ys ((λ i, i + 1) <$> rsize);
  m_minimize m obj;;
  mret m.

Definition build_bench_model6 (size : Z) : M handle :=
  m ← Model "bench6" true (Some "off");
  let rsize := range size in
  ys ← m_binary_var_list m rsize "y";
  m_add_constraints m
    (mapM (λ i, lhs ← m_scal_prod m ys ((λ j, i + (i + j) `mod` 3) <$> rsize);
                expr_ge lhs i) rsize)
    ((λ i, "ct_" +:+ pretty i) <$> rsize);;
  obj ← m_scal_prod m ys ((λ i, i + 1) <$> rsize);
  m_minimize m obj;;
  mret m.

Definition build_bench_model7 (size : Z) : M handle :=
  m ← AdvModel "bench7" true (Some "off");
  let rsize := range size in
  ys ← m_binary_var_list m rsize "y";
  m_add_constraints m
    (mapM (λ i, lhs ← m_scal_prod_vars_all_different m ys
                        ((λ j, i + (i + j) `mod` 3) <$> rsize);
                expr_ge lhs i) rsize)
    ((λ i, "ct_" +:+ pretty i) <$> rsize);;
  obj ← m_scal_prod_vars_all_different m ys ((λ i, i + 1) <$> rsize);
  m_minimize m obj;;
  mret m.

(** ** The performance-sampling cell *)

(** A function object: its [__name__] and what calling it does. *)
Record PyFunction := {
  __name__ : string;
  call : Z → M handle;
}.

Definition sizes : list Z := [100; 300; 600; 1000; 3000; 5000].

Definition builders : list (PyFunction * string) :=
  [({| __name__ := "build_bench_model1"; call := build_bench_model1 |}, "initial");
   ({| __name__ := "build_bench_model2"; call := build_bench_model2 |}, "scal_prod");
   ({| __name__ := "build_bench_model4"; call := build_bench_model4 |}, "batch_cts");
   ({| __name__ := "build_bench_model5"; call := build_bench_model5 |}, "ignore_names");
   ({| __name__ := "build_bench_model6"; call := build_bench_model6 |}, "checker_off");
   ({| __name__ := "build_bench_model7"; call := build_bench_model7 |}, "advmodel")].

(** The variables the loop assigns and that are read after it. *)
Record Globals := {
  r : Z;
  res : gmap (Z * Z) float;
  elapsed : option float;
}.

Definition run_label (fname : string) (s r0 nb_runs : Z) : string :=
  "[" +:+ pretty r0 +:+ "/" +:+ pretty nb_runs +:+ "] use " +:+ fname
  +:+ " with size=" +:+ pretty s.

(** The body of the inner loop. *)
Definition sample (nb_runs s : Z) (g : Globals)
    (item : Z * (PyFunction * string)) : M Globals :=
  let '(b, (bf, _)) := item in
  let r1 := r g + 1 in
  blk ← with_ContextTimer (run_label (__name__ bf) s r1 nb_runs) (λ tt,
          m ← call bf s;
          m_end m;;
          mret m);
  let tt := blk.1 in
  elapsed1 ← getattr_msecs tt;
  ms ← getattr_msecs tt;
  mret {| r := r1; res := <[(b, s) := ms]> (res g); elapsed := Some elapsed1 |}.

Definition sampling_loop (szs : list Z) (bs : list (PyFunction * string))
    (nb_runs : Z) (g : Globals) : M Globals :=
  foldM (λ g s, foldM (sample nb_runs s) g (enumerate bs)) g szs.

Definition sampling_cell : M Globals :=
  print "* start computing performance data";;
  let res0 : gmap (Z * Z) float := ∅ in
  print "* start computing results...";;
  let nb_runs := Z.of_nat (length sizes) * Z.of_nat (length builders) in
  let r0 := 0 in
  g ← sampling_loop sizes builders nb_runs
        {| r := r0; res := res0; elapsed := None |};
  print "* end computing results";;
  mret g.

End Notebook.

(** ** What each builder leaves in the library, in closed form *)

Definition sumZ (l : list Z) : Z := foldr Z.add 0 l.

(** The variable made for [key] in a fresh model. *)
Definition y_var (ign : bool) (key : Z) : Var :=
  {| var_index := Z.to_nat key;
     var_name := if ign then None else Some ("y_" +:+ pretty key);
     var_type := BinaryVarType |}.

Definition ct_label (ign : bool) (i : Z) : option string :=
  if ign then None else Some ("ct_" +:+ pretty i).

(** The constraint [i] and the objective the scalar-product builders ask
    for.  [keep0] tells whether the terms with a zero coefficient are kept
    ([scal_prod_vars_all_different]) or left out ([scal_prod]); the
    coefficients of the objective are never zero. *)
Definition scal_lhs (keep0 ign : bool) (n i : Z) : LinearExpr :=
  let vars := y_var ign <$> range n in
  let coefs := (λ j, i + (i + j) `mod` 3) <$> range n in
  if keep0 then zip vars coefs else scal_terms vars coefs.

Definition scal_ct (keep0 ign : bool) (n i : Z) : LinearConstraint :=
  {| ct_lhs := scal_lhs keep0 ign n i;
     ct_sense := SenseGE; ct_rhs := i; ct_name := ct_label ign i |}.

Definition scal_obj (ign : bool) (n : Z) : LinearExpr :=
  zip (y_var ign <$> range n) ((λ i, i + 1) <$> range n).

(** The same for [build_bench_model1]. *)
Definition beginner_ct (n i : Z) : LinearConstraint :=
  {| ct_lhs := (λ j, (y_var false i, i + (i + j) `mod` 3)) <$> range n;
     ct_sense := SenseGE; ct_rhs := i; ct_name := ct_label false i |}.

Definition beginner_obj (n : Z) : LinearExpr :=
  (λ k, (y_var false k, k)) <$> range n.

Definition fresh_model (c : ModelClass) (nm : string) (ign : bool)
    (chk : option string) : ModelObj :=
  {| cls := c; name := nm; ignore_names := ign; checker := chk;
     variables := []; constraints := []; objective := None; ended := false |}.

Definition built (c : ModelClass) (nm : string) (ign : bool)
    (chk : option string) (n : Z) (cts : list LinearConstraint)
    (obj : LinearExpr) : ModelObj :=
  {| cls := c; name := nm; ignore_names := ign; checker := chk;
     variables := y_var ign <$> range n; constraints := cts;
     objective := Some (Minimize, obj); ended := false |}.

Definition scal_model (keep0 : bool) (c : ModelClass) (nm : string)
    (ign : bool) (chk : option string) (n : Z) : ModelObj :=
  built c nm ign chk n (scal_ct keep0 ign n <$> range n) (scal_obj ign n).

Definition beginner_model (n : Z) : ModelObj :=
  built ClsModel "bench1" false None n (beginner_ct n <$> range n) (beginner_obj n).

(** The constraint before [m.add] or [m.add_constraints] names it. *)
Definition scal_ct_unnamed (keep0 ign : bool) (n i : Z) : LinearConstraint :=
  {| ct_lhs := scal_lhs keep0 ign n i;
     ct_sense := SenseGE; ct_rhs := i; ct_name := None |}.

(** ** Vocabulary of the statements *)

Section Vocabulary.
Context {F : PyFloat}.

(** The same world with a library that does not fail. *)
Definition quieten (w : World) : World := set_faults [] w.

(** The clock, the output and the timers are the same in both worlds. *)
Definition py_same (w w' : World) : Prop :=
  clock w' = clock w ∧ ticks w' = ticks w ∧ stdout w' = stdout w
  ∧ timers w' = timers w.

(** [p] hides no failure of the library: either the library raised nothing
    and the run is the one of the world where it cannot fail, or it raised
    [e] and [e] is the outcome of [p]. *)
Definition propagates {A} (p : M A) : Prop := ∀ w r w',
  p w = (r, w') →
  py_same w w'
  ∧ ((raised w' = raised w ∧ p (quieten w) = (r, quieten w'))
     ∨ (∃ e, r = Raise e ∧ raised w' = raised w ++ [e])).

(** The eight builders of the notebook, each with the model it asks for. *)
Definition bench_table : list ((Z → M handle) * (Z → ModelObj)) :=
  [(build_bench_model1, beginner_model);
   (build_bench_model2, scal_model false ClsModel "bench2" false None);
   (build_bench_model21, scal_model false ClsModel "bench2.1" false None);
   (build_bench_model3, scal_model false ClsModel "bench3" false None);
   (build_bench_model4, scal_model false ClsModel "bench4" false None);
   (build_bench_model5, scal_model false ClsModel "bench5" true None);
   (build_bench_model6, scal_model false ClsModel "bench6" true (Some "off"));
   (build_bench_model7, scal_model true ClsAdvModel "bench7" true (Some "off"))].

Definition bench_builders : list (Z → M handle) :=
  [build_bench_model1; build_bench_model2; build_bench_model21;
   build_bench_model3; build_bench_model4; build_bench_model5;
   build_bench_model6; build_bench_model7].

(** The builders that use a scalar product: all but the first. *)
Definition scal_builders : list (Z → M handle) :=
  [build_bench_model2; build_bench_model21; build_bench_model3;
   build_bench_model4; build_bench_model5; build_bench_model6;
   build_bench_model7].


(** What [math.ceil(1000 * (now - start))] computes. *)
Definition elapsed_msecs (now st : float) : float :=
  fceil (fmul (float_of_int 1000) (fsub now st)).

(** The world after [__enter__] and after [__exit__] of the timer [self],
    whose state was [o]: one more reading of the clock is taken, the timer is
    updated and, on exit, one line is printed. *)
Definition entered (self : handle) (o : TimerObj) (w : World) : World :=
  set_timers (<[self := set_start (clock w (ticks w)) o]> (timers w))
    (set_ticks (S (ticks w)) w).

Definition exited (self : handle) (o : TimerObj) (w : World) : World :=
  let ms := elapsed_msecs (clock w (ticks w)) (start o) in
  set_stdout (stdout w ++ [exit_message (msg o) ms])
    (set_timers (<[self := set_msecs ms o]> (timers w))
       (set_ticks (S (ticks w)) w)).

(** Objects are never freed: [p] leaves every timer it finds in place. *)
Definition keeps_timers {A} (p : M A) : Prop := ∀ w r w',
  p w = (r, w') → (length (timers w) ≤ length (timers w'))%nat.


(** The iterations of the sampling loop in the order they run: each size
    with each numbered builder. *)
Definition combos {A} (szs : list Z) (bs : list A) : list (Z * (Z * A)) :=
  s ← szs; item ← enumerate bs; [(s, item)].

Definition sample_flat (nb_runs : Z) (g : Globals)
    (c : Z * (Z * (PyFunction * string))) : M Globals :=
  sample nb_runs c.1 g c.2.

(** The key of [res] an iteration writes. *)
Definition res_key {A} (c : Z * (Z * A)) : Z * Z := (c.2.1, c.1).

(** The block the sampling loop times. *)
Definition build_and_end (bf : PyFunction) (s : Z) (tt : handle) : M handle :=
  m ← call bf s;
  m_end m;;
  mret m.

(** An iteration of the sampling loop that completes: the block, run
    between [__enter__] and [__exit__], builds one new model and ends it,
    which empties it; the time measured at exit is all the iteration keeps,
    in [res] under the key (builder index, size). *)
Definition iteration_ok (nb_runs s b : Z) (bf : PyFunction)
    (g : Globals) (w : World) (g' : Globals) (w' : World) : Prop :=
  ∃ md w_out,
    let tt := length (timers w) in
    let o1 := {| msg := run_label (__name__ bf) s (r g + 1) nb_runs;
                 start := clock w (ticks w); msecs := None |} in
    let ms := elapsed_msecs (clock w_out (ticks w_out)) (start o1) in
    build_and_end bf s tt
      (set_timers (timers w ++ [o1]) (set_ticks (S (ticks w)) w))
    = (Ok (length (models w)), w_out)
    ∧ models w_out = models w ++ [md]
    ∧ ended md = true ∧ variables md = [] ∧ constraints md = []
    ∧ timers w_out = timers w ++ [o1]
    ∧ w' = exited tt o1 w_out
    ∧ g' = {| r := r g + 1; res := <[(b, s) := ms]> (res g);
              elapsed := Some ms |}.

End Vocabulary.

(** ** Rationals as an idealised float arithmetic, to run the code *)

Definition round_half_even (x : Q) : Z :=
  let fl := Qfloor x in
  match Qcompare (x - inject_Z fl) (1 # 2) with
  | Lt => fl
  | Gt => fl + 1
  | Eq => if Z.even fl then fl else fl + 1
  end.

Definition exact_arith : PyFloat :=
  {| float := Q; float_of_int := inject_Z; fsub := Qminus; fmul := Qmult;
     fceil := λ x, inject_Z (Qceiling x);
     fmt_0f := λ x, pretty (round_half_even x) |}.

(** A world whose clock advances by 3.5 ms per reading and whose library
    never fails, and one whose library fails at its fourth call. *)
Definition calm_clock (n : nat) : @float exact_arith :=
  (inject_Z (Z.of_nat n) * (7 # 2000))%Q.

Definition calm_world : @World exact_arith :=
  {| clock := calm_clock; ticks := 0; stdout := [];
     timers := []; models := []; faults := []; raised := [] |}.


(** A world with one timer that was entered at the first reading of the
    clock, two readings ago. *)
Definition stopwatch : @TimerObj exact_arith :=
  {| msg := "fibonacci 30"; start := calm_clock 0; msecs := None |}.

Definition timing_world : @World exact_arith :=
  set_timers [stopwatch] (set_ticks 2 calm_world).

(** A timer as [ContextTimer("fibonacci 30")] makes it, in the world it is
    made in. *)
Definition new_timer : @TimerObj exact_arith :=
  {| msg := "fibonacci 30"; start := float_of_int 0; msecs := None |}.

Definition new_timer_world : @World exact_arith :=
  (ContextTimer "fibonacci 30" calm_world).2.

(** A block that prints and then raises. *)
Definition failing_block (tt : handle) : @M exact_arith () :=
  print "working";;
  throw (Exn "ValueError" "boom").

(** A world that already holds a model, a timer and some output. *)
Definition busy_world : @World exact_arith :=
  set_stdout ["* start computing results..."]
    (set_models [fresh_model ClsModel "m11k" false None] timing_world).

(** Reading the outcome of a run. *)
Definition is_ok {A} (r : Res A) : bool :=
  match r with
  | Ok _ => true
  | Raise _ => false
  end.

Definition ok_value {A} (d : A) (r : Res A) : A :=
  match r with
  | Ok a => a
  | Raise _ => d
  end.

(** The variables of the sampling cell before its loop. *)
Definition globals0 : @Globals exact_arith :=
  {| r := 0; res := ∅; elapsed := None |}.

(** ** Vocabulary of the further properties *)

(** [fib] instrumented: the value, the number of calls of [fib] the
    evaluation makes and the deepest nesting of calls it reaches. *)
Record Profile := { fib_value : Z; fib_calls : Z; fib_depth : Z }.

Equations? fib_profile (n : Z) : Profile by wf (Z.to_nat n) lt :=
  fib_profile n with Z_le_gt_dec n 2 => {
    | left _ := {| fib_value := 1; fib_calls := 1; fib_depth := 1 |};
    | right _ :=
        {| fib_value := fib_value (fib_profile (n - 1)) + fib_value (fib_profile (n - 2));
           fib_calls := 1 + fib_calls (fib_profile (n - 1)) + fib_calls (fib_profile (n - 2));
           fib_depth := 1 + Z.max (fib_depth (fib_profile (n - 1)))
                              (fib_depth (fib_profile (n - 2))) |} }.
Proof. all: lia. Qed.

(** The value of a linear expression when the variable of index [v] takes
    the value [y v], and what it is for a constraint to hold there. *)
Definition expr_value (y : nat → Z) (e : LinearExpr) : Z :=
  sumZ ((λ t, t.2 * y (var_index t.1)) <$> e).

Definition satisfies (y : nat → Z) (c : LinearConstraint) : Prop :=
  match ct_sense c with
  | SenseLE => expr_value y (ct_lhs c) ≤ ct_rhs c
  | SenseEQ => expr_value y (ct_lhs c) = ct_rhs c
  | SenseGE => ct_rhs c ≤ expr_value y (ct_lhs c)
  end.

(** Two assignments: every variable at 1, and only [y_0] at 1. *)
Definition all_ones (v : nat) : Z := 1.
Definition only_y0 (v : nat) : Z := if decide (v = 0%nat) then 1 else 0.

Section Accounting.
Context {F : PyFloat}.



(** The time the [k]-th timed block measures when the clock [clk] has been
    read [t0] times before the first block and only the timers read it. *)
Definition measured (clk : nat → float) (t0 k : nat) : float :=
  elapsed_msecs (clk (S (t0 + 2 * k)%nat)) (clk (t0 + 2 * k)%nat).

(** The line the [k]-th iteration of the sampling loop prints. *)
Definition sample_line (nb_runs r0 : Z) (clk : nat → float) (t0 k : nat)
    (c : Z * (Z * (PyFunction * string))) : string :=
  exit_message (run_label (__name__ c.2.2.1) c.1 (r0 + Z.of_nat k + 1) nb_runs)
    (measured clk t0 k).

End Accounting.

(** ** The cells that read the results

    They divide floats, which the timer does not. *)
Class PyFloatDiv (F : PyFloat) := {
  fdiv : float → float → float;     (* x / y for y != 0 *)
  fis_zero : float → bool;          (* y == 0 *)
}.

Definition ZeroDivisionError : exn :=
  Exn "ZeroDivisionError" "float division by zero".

Section Readers.
Context {F : PyFloat} {D : PyFloatDiv F}.

(** [x / y] on floats *)
Definition truediv (x y : float) : M float :=
  if fis_zero y then throw ZeroDivisionError else mret (fdiv x y).

(** [[res[b,s]/1000 for s in sizes]], the points plotted for the builder
    numbered [b]. *)
Definition bts (szs : list Z) (res0 : gmap (Z * Z) float) (b : Z)
  : M (list float) :=
  mapM (λ s, x ← getitem res0 (b, s); truediv x (float_of_int 1000)) szs.

(** The loop that fills [ratios]; both times are floats ([math.ceil]
    returns a float on Python 2).  The geometric mean the cell then prints
    needs [math.exp] and [math.log] and is left out. *)
Definition ratios_loop (szs : list Z) (nb_builders : Z)
    (res0 : gmap (Z * Z) float) : M (gmap Z float) :=
  foldM (λ ratios s,
    initial ← getitem res0 (0, s);
    final ← getitem res0 (nb_builders - 1, s);
    r0 ← truediv initial final;
    mret (<[s := r0]> ratios)) ∅ szs.

(** How the loop over the sizes ends when [res0] has the keys it reads. *)
Definition ratios_outcome (szs : list Z) (nb_builders : Z)
    (res0 : gmap (Z * Z) float) (acc : gmap Z float)
    (x : Res (gmap Z float)) : Prop :=
  match x with
  | Ok ratios =>
    (∀ s, s ∈ szs → ∃ i f,
        res0 !! (0, s) = Some i ∧ res0 !! (nb_builders - 1, s) = Some f
        ∧ fis_zero f = false ∧ ratios !! s = Some (fdiv i f))
    ∧ (∀ s, s ∉ szs → ratios !! s = acc !! s)
  | Raise e =>
    e = ZeroDivisionError
    ∧ ∃ s f, s ∈ szs ∧ res0 !! (nb_builders - 1, s) = Some f
             ∧ fis_zero f = true
  end.

End Readers.

(** Division on the rationals, and more worlds to run the code in. *)
Definition exact_div : PyFloatDiv exact_arith :=
  Build_PyFloatDiv exact_arith
    (Qdiv : @float exact_arith → @float exact_arith → @float exact_arith)
    ((λ x, Qeq_bool x 0) : @float exact_arith → bool).


(** The sampling loop over the sizes 2 and 3. *)
Definition sampled : Res (@Globals exact_arith) * @World exact_arith :=
  sampling_loop [2; 3] builders 12 globals0 calm_world.

(** * Properties *)

(** ** [fib] *)

Lemma fib_step n :
  fib n = if decide (n ≤ 2) then 1 else fib (n - 1) + fib (n - 2).
Proof.
  rewrite (fib_equation_1 n).
  destruct (Z_le_gt_dec n 2); simpl; case_decide; (lia || reflexivity).
Qed.

Lemma fib_pair (k : nat) :
  fib (Z.of_nat (S k)) = fibonacci (S k)
  ∧ fib (Z.of_nat (S (S k))) = fibonacci (S (S k)).
Proof.
  induction k as [|k [IH1 IH2]].
  - split; rewrite fib_step; case_decide; (lia || reflexivity).
  - split; [exact IH2|].
    rewrite fib_step. case_decide; [lia|].
    replace (Z.of_nat (S (S (S k))) - 1) with (Z.of_nat (S (S k))) by lia.
    replace (Z.of_nat (S (S (S k))) - 2) with (Z.of_nat (S k)) by lia.
    rewrite IH1, IH2. reflexivity.
Qed.

(** C8: [fib] is a total function on the integers; it returns 1 whenever
    [n <= 2] and [fib(n-1) + fib(n-2)] otherwise, so for every [n >= 1] it is
    the Fibonacci number F(n) with F(1) = F(2) = 1. *)
Theorem fib_total_fibonacci :
  (∀ n, n ≤ 2 → fib n = 1)
  ∧ (∀ n, 2 < n → fib n = fib (n - 1) + fib (n - 2))
  ∧ (∀ n, 1 ≤ n → fib n = fibonacci (Z.to_nat n)).
Proof.
  repeat split.
  - intros n Hn. rewrite fib_step. case_decide; [reflexivity | lia].
  - intros n Hn. rewrite fib_step. case_decide; [lia | reflexivity].
  - intros n Hn.
    destruct (Z.to_nat n) as [|k] eqn:E; [lia|].
    replace n with (Z.of_nat (S k)) by lia.
    apply fib_pair.
Qed.

(** [fib] at -4 and at 30. *)
Lemma fib_total_fibonacci_witness :
  fib (-4) = 1 ∧ fib 30 = fib 29 + fib 28 ∧ fib 30 = 832040.
Proof.
  destruct fib_total_fibonacci as (H1 & H2 & H3).
  split; [apply H1; lia|].
  split; [apply (H2 30); lia|].
  rewrite (H3 30) by lia. vm_compute. reflexivity.
Defined.

Section Properties.
Context {F : PyFloat}.
Implicit Types (w : World) (md : ModelObj).

(** ** Running a computation step by step *)

Lemma bind_ok {A B} (p : M A) (f : A → M B) w a w' :
  p w = (Ok a, w') → (p ≫= f) w = f a w'.
Proof. intros H. unfold mbind, M_bind. rewrite H. reflexivity. Qed.

Lemma mapM_pure {A B} (f : A → M B) (g : A → B) (l : list A) w :
  (∀ x, x ∈ l → f x w = (Ok (g x), w)) →
  mapM f l w = (Ok (g <$> l), w).
Proof.
  induction l as [|a l IH]; intros H; [reflexivity|].
  cbn [mapM]. erewrite bind_ok by (apply H; left).
  erewrite bind_ok by (apply IH; intros; apply H; by right).
  reflexivity.
Qed.

(** ** Python dictionaries *)

Lemma dict_lookup `{Countable K} {V} (f : K → V) (keys : list K) (k : K) :
  k ∈ keys → dict ((λ k, (k, f k)) <$> keys) !! k = Some (f k).
Proof.
  unfold dict.
  assert (G : ∀ d : gmap K V,
             foldl (λ d kv, <[kv.1 := kv.2]> d) d ((λ k, (k, f k)) <$> keys) !! k
             = if decide (k ∈ keys) then Some (f k) else d !! k).
  { induction keys as [|a keys IH]; intros d; cbn [fmap list_fmap foldl].
    - case_decide as Hin; [inversion Hin | reflexivity].
    - rewrite IH. cbn [fst snd].
      destruct (decide (k ∈ keys)) as [Hk|Hk].
      + rewrite decide_True by (by right). reflexivity.
      + destruct (decide (k = a)) as [->|Hne].
        * rewrite decide_True by left. apply lookup_insert_eq.
        * rewrite decide_False by (rewrite elem_of_cons; tauto).
          by apply lookup_insert_ne. }
  intros Hin. rewrite G. by rewrite decide_True.
Qed.

Lemma zip_graph {A B} (g : A → B) (l : list A) :
  zip l (g <$> l) = (λ x, (x, g x)) <$> l.
Proof. induction l as [|a l IH]; [reflexivity|]. cbn. by rewrite IH. Qed.

Lemma pairs_graph {A V} (c : A → A → V) (l1 l2 : list A) :
  (i ← l1; j ← l2; [((i, j), c i j)])
  = (λ k, (k, c k.1 k.2)) <$> (i ← l1; j ← l2; [(i, j)]).
Proof.
  induction l1 as [|a l1 IH]; [reflexivity|].
  cbn [mbind list_bind]. rewrite fmap_app. f_equal; [|exact IH].
  clear IH. induction l2 as [|b l2 IH2]; [reflexivity|].
  cbn. by rewrite IH2.
Qed.

Lemma coefs_lookup (l : list Z) (i j : Z) :
  i ∈ l → j ∈ l →
  dict (i ← l; j ← l; [((i, j), i + (i + j) `mod` 3)]) !! (i, j)
  = Some (i + (i + j) `mod` 3).
Proof.
  intros Hi Hj.
  rewrite (pairs_graph (λ i j, i + (i + j) `mod` 3)).
  rewrite (dict_lookup (λ k, k.1 + (k.1 + k.2) `mod` 3)); [reflexivity|].
  apply list_elem_of_bind. exists i. split; [|done].
  apply list_elem_of_bind. exists j. split; [left | done].
Qed.

Lemma new_vars_range c nm ign chk n :
  new_vars (fresh_model c nm ign chk) (range n) "y" = y_var ign <$> range n.
Proof.
  unfold new_vars, range. apply list_eq. intros i.
  rewrite list_lookup_imap, list_lookup_fmap.
  destruct (seqZ 0 n !! i) as [key|] eqn:E; [|reflexivity].
  apply lookup_seqZ in E as [-> _]. cbn. unfold y_var.
  rewrite Z.add_0_l, Nat2Z.id. reflexivity.
Qed.

Lemma getitem_ok `{Countable K} {V} (d : gmap K V) (k : K) (v : V) w :
  d !! k = Some v → getitem d k w = (Ok v, w).
Proof. intros E. unfold getitem. rewrite E. reflexivity. Qed.

Lemma list_getitem_range (n k : Z) w :
  k ∈ range n → list_getitem (range n) k w = (Ok k, w).
Proof.
  unfold range. intros Hk. apply elem_of_seqZ in Hk.
  unfold list_getitem. cbv zeta. rewrite length_seqZ.
  rewrite (decide_False (P := k < 0)) by lia. rewrite decide_True by lia.
  rewrite lookup_seqZ_lt by lia. rewrite Z2Nat.id by lia. reflexivity.
Qed.

Lemma zip_with_fmap2 {A B C D} (f : B → C → D) (g : A → B) (k : A → C)
    (l : list A) :
  zip_with f (g <$> l) (k <$> l) = (λ x, f (g x) (k x)) <$> l.
Proof. induction l as [|a l IH]; [reflexivity|]. cbn. by rewrite IH. Qed.

Lemma foldl_add_cts {A} (c : A → LinearConstraint) (nm : A → string)
    (l : list A) md :
  foldl (λ md i, set_constraints (constraints md ++ [named md (c i) (nm i)]) md)
        md l
  = set_constraints (constraints md ++ ((λ i, named md (c i) (nm i)) <$> l)) md.
Proof.
  revert md. induction l as [|a l IH]; intros md; cbn [foldl fmap list_fmap].
  - rewrite app_nil_r. by destruct md.
  - rewrite IH. unfold set_constraints at 1 3. cbn.
    rewrite <- app_assoc. reflexivity.
Qed.

Lemma concat_singletons {A B} (t : A → B) (l : list A) :
  concat ((λ x, [t x]) <$> l) = t <$> l.
Proof. induction l as [|a l IH]; [reflexivity|]. cbn. by rewrite IH. Qed.

Lemma ys_lookup (n key : Z) :
  key ∈ range n →
  dict (zip (range n) (y_var false <$> range n)) !! key = Some (y_var false key).
Proof. intros Hk. rewrite zip_graph. by apply dict_lookup. Qed.

(** ** Scalar products *)

Lemma coef_nonzero_terms (e : list (Var * Z)) (v : nat) :
  coef (filter (λ t, t.2 ≠ 0) e) v = coef e v.
Proof.
  induction e as [|[x c] e IH]; [reflexivity|].
  rewrite filter_cons. cbn [snd]. case_decide as Hc; cbn [coef].
  - by rewrite IH.
  - rewrite IH. assert (c = 0) as -> by lia. by case_decide.
Qed.

Lemma coef_scal_terms (ts : list Var) (cs : list Z) (v : nat) :
  coef (scal_terms ts cs) v = coef (zip ts cs) v.
Proof. apply coef_nonzero_terms. Qed.

Lemma scal_terms_all (ts : list Var) (cs : list Z) :
  (∀ c, c ∈ cs → c ≠ 0) → scal_terms ts cs = zip ts cs.
Proof.
  intros Hcs. unfold scal_terms.
  assert (H : Forall (λ t : Var * Z, t.2 ≠ 0) (zip ts cs)).
  { apply Forall_forall. intros [x c] Ht. apply elem_of_zip_r in Ht.
    by apply Hcs. }
  induction H as [|t l Ht _ IH]; [reflexivity|].
  rewrite filter_cons, decide_True by done. by rewrite IH.
Qed.

Lemma scal_terms_obj ign n :
  scal_terms (y_var ign <$> range n) ((λ i, i + 1) <$> range n)
  = zip (y_var ign <$> range n) ((λ i, i + 1) <$> range n).
Proof.
  apply scal_terms_all. intros c (i & -> & Hi%elem_of_seqZ)%list_elem_of_fmap. lia.
Qed.

(** ** The builders when the library does not fail *)

Section Quiet.
Variable w0 : World.
Hypothesis Hq : faults w0 = [].
Local Abbreviation h := (length (models w0)).
Local Notation "'W' md" := (set_models (models w0 ++ [md]) w0) (at level 10).

Lemma lib_call_at {A} (body : M A) md : lib_call body (W md) = body (W md).
Proof. unfold lib_call. cbn. by rewrite Hq. Qed.

Lemma method_at {A} (f : ModelObj → A * ModelObj) md :
  method h f (W md) = (Ok (f md).1, W (f md).2).
Proof.
  unfold method. cbn [models set_models].
  rewrite list_lookup_middle by reflexivity.
  destruct (f md) as [a md']. cbn [fst snd].
  rewrite insert_app_r_alt by lia. rewrite Nat.sub_diag. reflexivity.
Qed.

Lemma on_model_at {A} (f : ModelObj → A * ModelObj) md :
  on_model h f (W md) = (Ok (f md).1, W (f md).2).
Proof. unfold on_model. rewrite lib_call_at. apply method_at. Qed.

Lemma new_model_at c nm ign chk :
  new_model c nm ign chk w0 = (Ok h, W (fresh_model c nm ign chk)).
Proof. unfold new_model, lib_call. by rewrite Hq. Qed.

Lemma pure_call_at {A} (a : A) md : lib_call (mret a) (W md) = (Ok a, W md).
Proof. by rewrite lib_call_at. Qed.

Lemma drain_at {A B} (items : M A) (f : A → ModelObj → B * ModelObj) xs md :
  items (W md) = (Ok xs, W md) →
  lib_call (ys ← items; method h (f ys)) (W md)
  = (Ok (f xs md).1, W (f xs md).2).
Proof.
  intros E. rewrite lib_call_at. erewrite bind_ok by exact E. apply method_at.
Qed.

Lemma for_at {A} (body : A → M ()) (step : ModelObj → A → ModelObj)
    (l : list A) md :
  (∀ x md, x ∈ l → body x (W md) = (Ok (), W (step md x))) →
  for_ l body (W md) = (Ok (), W (foldl step md l)).
Proof.
  revert md. induction l as [|a l IH]; intros md H; [reflexivity|].
  cbn [for_ foldl]. erewrite bind_ok by (apply H; left).
  apply IH. intros; apply H; by right.
Qed.

Ltac run1 :=
  first [ apply new_model_at | apply on_model_at | apply pure_call_at
        | apply getitem_ok | apply list_getitem_range ].
Ltac run := erewrite bind_ok by run1.

Lemma build_bench_model1_quiet n :
  build_bench_model1 n w0 = (Ok h, W (beginner_model n)).
Proof.
  unfold build_bench_model1, Model, m_binary_var_dict, m_sum, var_times,
    expr_ge, m_add, m_minimize.
  run. run. cbn [fst snd]. rewrite new_vars_range.
  erewrite bind_ok.
  2:{ apply (for_at _ (λ md i, set_constraints
               (constraints md ++
                  [named md {| ct_lhs := (λ j, (y_var false i, i + (i + j) `mod` 3)) <$> range n;
                               ct_sense := SenseGE; ct_rhs := i; ct_name := None |}
                         ("ct_" +:+ pretty i)]) md)).
      intros i md Hi.
      erewrite bind_ok.
      2:{ apply (drain_at _ (λ xs md, (concat xs, md))).
          apply (mapM_pure _ (λ j, [(y_var false i, i + (i + j) `mod` 3)])).
          intros j Hj.
          erewrite bind_ok by (apply getitem_ok, ys_lookup, Hi).
          erewrite bind_ok by (apply getitem_ok, coefs_lookup; [apply Hi | apply Hj]).
          apply pure_call_at. }
      cbn [fst snd]. rewrite concat_singletons.
      run. run. reflexivity. }
  erewrite bind_ok.
  2:{ apply (drain_at _ (λ xs md, (concat xs, md))).
      apply (mapM_pure _ (λ k, [(y_var false k, k)])).
      intros k Hk.
      erewrite bind_ok by (apply getitem_ok, ys_lookup, Hk).
      erewrite bind_ok by (apply list_getitem_range, Hk).
      apply pure_call_at. }
  cbn [fst snd]. rewrite concat_singletons.
  run. rewrite foldl_add_cts. reflexivity.
Qed.

Lemma build_bench_model2_quiet n :
  build_bench_model2 n w0
  = (Ok h, W (scal_model false ClsModel "bench2" false None n)).
Proof.
  unfold build_bench_model2, Model, m_binary_var_dict, m_scal_prod,
    expr_ge, m_add, m_minimize.
  run. run. cbn [fst snd]. rewrite new_vars_range.
  assert (Hvars : ∀ w, mapM (λ i1, getitem
            (dict (zip (range n) (y_var false <$> range n))) i1) (range n) w
          = (Ok (y_var false <$> range n), w)).
  { intros w. apply mapM_pure. intros i1 Hi1. apply getitem_ok, ys_lookup, Hi1. }
  erewrite bind_ok.
  2:{ apply (for_at _ (λ md i, set_constraints
               (constraints md ++
                  [named md (scal_ct_unnamed false false n i) ("ct_" +:+ pretty i)]) md)).
      intros i md Hi.
      erewrite bind_ok by apply Hvars.
      erewrite bind_ok.
      2:{ apply (mapM_pure _ (λ j, i + (i + j) `mod` 3)).
          intros j Hj. apply getitem_ok, coefs_lookup; [apply Hi | apply Hj]. }
      run. run. run. reflexivity. }
  erewrite bind_ok by apply Hvars.
  run. run. rewrite foldl_add_cts. cbn [fst snd]. rewrite scal_terms_obj.
  reflexivity.
Qed.

Lemma build_bench_model21_quiet n :
  build_bench_model21 n w0
  = (Ok h, W (scal_model false ClsModel "bench2.1" false None n)).
Proof.
  unfold build_bench_model21, Model, m_binary_var_list, m_scal_prod,
    expr_ge, m_add, m_minimize.
  run. run. cbn [fst snd]. rewrite new_vars_range.
  erewrite bind_ok.
  2:{ apply (for_at _ (λ md i, set_constraints
               (constraints md ++
                  [named md (scal_ct_unnamed false false n i) ("ct_" +:+ pretty i)]) md)).
      intros i md Hi.
      erewrite bind_ok.
      2:{ apply (mapM_pure _ (λ j, i + (i + j) `mod` 3)).
          intros j Hj. apply getitem_ok, coefs_lookup; [apply Hi | apply Hj]. }
      run. run. run. reflexivity. }
  run. run. rewrite foldl_add_cts. cbn [fst snd]. rewrite scal_terms_obj.
  reflexivity.
Qed.

Lemma build_bench_model3_quiet n :
  build_bench_model3 n w0
  = (Ok h, W (scal_model false ClsModel "bench3" false None n)).
Proof.
  unfold build_bench_model3, Model, m_binary_var_list, m_add_constraints,
    m_scal_prod, expr_ge, m_minimize.
  run. run. cbn [fst snd]. rewrite new_vars_range.
  erewrite bind_ok.
  2:{ apply drain_at. apply (mapM_pure _ (scal_ct_unnamed false false n)).
      intros i Hi.
      erewrite bind_ok.
      2:{ apply (mapM_pure _ (λ j, i + (i + j) `mod` 3)).
          intros j Hj. apply getitem_ok, coefs_lookup; [apply Hi | apply Hj]. }
      run. apply pure_call_at. }
  cbn [fst snd]. run. run.
  rewrite (zip_with_fmap2 (named _)). cbn [fst snd]. rewrite scal_terms_obj.
  reflexivity.
Qed.

Lemma scal_builder_quiet (new : string → bool → option string → M handle)
    (prod : handle → list Var → list Z → M LinearExpr)
    keep0 c nm ign chk n :
  (new = Model ∧ c = ClsModel ∨ new = AdvModel ∧ c = ClsAdvModel) →
  (prod = m_scal_prod ∧ keep0 = false
   ∨ prod = m_scal_prod_vars_all_different ∧ keep0 = true) →
  (m ← new nm ign chk;
   let rsize := range n in
   ys ← m_binary_var_list m rsize "y";
   m_add_constraints m
     (mapM (λ i, lhs ← prod m ys ((λ j, i + (i + j) `mod` 3) <$> rsize);
                 expr_ge lhs i) rsize)
     ((λ i, "ct_" +:+ pretty i) <$> rsize);;
   obj ← prod m ys ((λ i, i + 1) <$> rsize);
   m_minimize m obj;;
   mret m) w0
  = (Ok h, W (scal_model keep0 c nm ign chk n)).
Proof.
  intros Hnew Hprod.
  assert (Hp : ∀ ys coefs md,
             prod h ys coefs (W md)
             = (Ok (if keep0 then zip ys coefs else scal_terms ys coefs), W md)).
  { intros. destruct Hprod as [[-> ->] | [-> ->]]; apply on_model_at. }
  assert (Hn : new nm ign chk w0 = (Ok h, W (fresh_model c nm ign chk))).
  { destruct Hnew as [[-> ->] | [-> ->]]; apply new_model_at. }
  unfold m_binary_var_list, m_add_constraints, expr_ge, m_minimize.
  erewrite bind_ok by apply Hn.
  run. cbn [fst snd]. rewrite new_vars_range.
  erewrite bind_ok.
  2:{ apply drain_at. apply (mapM_pure _ (scal_ct_unnamed keep0 ign n)).
      intros i _. erewrite bind_ok by apply Hp. apply pure_call_at. }
  cbn [fst snd]. erewrite bind_ok by apply Hp. run.
  rewrite (zip_with_fmap2 (named _)).
  replace (if keep0 then _ else _) with (scal_obj ign n)
    by (destruct keep0; [reflexivity | symmetry; apply scal_terms_obj]).
  reflexivity.
Qed.

Lemma build_bench_model4_quiet n :
  build_bench_model4 n w0
  = (Ok h, W (scal_model false ClsModel "bench4" false None n)).
Proof. apply (scal_builder_quiet Model m_scal_prod); auto. Qed.

Lemma build_bench_model5_quiet n :
  build_bench_model5 n w0
  = (Ok h, W (scal_model false ClsModel "bench5" true None n)).
Proof. apply (scal_builder_quiet Model m_scal_prod); auto. Qed.

Lemma build_bench_model6_quiet n :
  build_bench_model6 n w0
  = (Ok h, W (scal_model false ClsModel "bench6" true (Some "off") n)).
Proof. apply (scal_builder_quiet Model m_scal_prod); auto. Qed.

Lemma build_bench_model7_quiet n :
  build_bench_model7 n w0
  = (Ok h, W (scal_model true ClsAdvModel "bench7" true (Some "off") n)).
Proof. apply (scal_builder_quiet AdvModel m_scal_prod_vars_all_different); auto. Qed.

End Quiet.

(** ** Exceptions of the library pass through *)

Lemma py_same_refl w : py_same w w.
Proof. by repeat split. Qed.

Lemma py_same_trans w1 w2 w3 : py_same w1 w2 → py_same w2 w3 → py_same w1 w3.
Proof. unfold py_same. intros (?&?&?&?) (?&?&?&?). repeat split; congruence. Qed.

Lemma propagates_ret {A} (a : A) : propagates (mret a).
Proof.
  intros w r w' [= <- <-]. split; [apply py_same_refl|]. left. by split.
Qed.

Lemma propagates_throw {A} (e : exn) : propagates (throw (A := A) e).
Proof.
  intros w r w' [= <- <-]. split; [apply py_same_refl|]. left. by split.
Qed.

Lemma propagates_lib_raise {A} (e : exn) : propagates (lib_raise (A := A) e).
Proof.
  intros w r w' [= <- <-]. split; [by repeat split|]. right. by exists e.
Qed.

Lemma propagates_bind {A B} (p : M A) (f : A → M B) :
  propagates p → (∀ a, propagates (f a)) → propagates (p ≫= f).
Proof.
  intros Hp Hf w r w' E. unfold mbind, M_bind in E.
  destruct (p w) as [[a|e] w1] eqn:E1.
  - destruct (Hp _ _ _ E1) as [Hs1 Hc1]. destruct (Hf a _ _ _ E) as [Hs2 Hc2].
    split; [by eapply py_same_trans|].
    destruct Hc1 as [[Hr1 Hq1] | (e & ? & _)]; [|discriminate].
    destruct Hc2 as [[Hr2 Hq2] | (e & -> & Hr2)].
    + left. split; [congruence|]. unfold mbind, M_bind. by rewrite Hq1.
    + right. exists e. split; [done | congruence].
  - injection E as <- <-. destruct (Hp _ _ _ E1) as [Hs1 Hc1]. split; [done|].
    destruct Hc1 as [[Hr1 Hq1] | (e' & [= ->] & Hr1)].
    + left. split; [done|]. unfold mbind, M_bind. by rewrite Hq1.
    + right. by exists e'.
Qed.

Lemma propagates_lib_call {A} (body : M A) :
  propagates body → propagates (lib_call body).
Proof.
  intros Hb w r w' E. unfold lib_call in E.
  destruct (faults w) as [|[e|] fs] eqn:Ef.
  - destruct (Hb _ _ _ E) as [Hs Hc]. split; [done|].
    destruct Hc as [[Hr Hq] | ?]; [left | by right]. split; [done|].
    unfold lib_call. exact Hq.
  - injection E as <- <-. split; [by repeat split|]. right. by exists e.
  - destruct (Hb _ _ _ E) as [Hs Hc]. split; [exact Hs|].
    destruct Hc as [[Hr Hq] | ?]; [left | by right]. split; [exact Hr|].
    unfold lib_call. exact Hq.
Qed.

Lemma propagates_method {A} (m : handle) (f : ModelObj → A * ModelObj) :
  propagates (method m f).
Proof.
  intros w r w' E. unfold method in *. cbn [models quieten set_faults].
  destruct (models w !! m) as [md|].
  - destruct (f md) as [a md']. injection E as <- <-.
    split; [by repeat split|]. left. by split.
  - injection E as <- <-. split; [by repeat split|]. right. by eexists.
Qed.

Lemma propagates_new_model c nm ign chk : propagates (new_model c nm ign chk).
Proof.
  apply propagates_lib_call. intros w r w' [= <- <-].
  split; [by repeat split|]. left. by split.
Qed.

Lemma propagates_getitem `{Countable K} {V} (d : gmap K V) (k : K) :
  propagates (getitem d k).
Proof.
  unfold getitem. destruct (d !! k); [apply propagates_ret | apply propagates_throw].
Qed.

Lemma propagates_list_getitem {A} (l : list A) (i : Z) :
  propagates (list_getitem l i).
Proof.
  unfold list_getitem. cbv zeta.
  repeat first [ case_decide | case_match | apply propagates_ret
               | apply propagates_throw ].
Qed.

Lemma propagates_mapM {A B} (f : A → M B) (l : list A) :
  (∀ x, propagates (f x)) → propagates (mapM f l).
Proof.
  intros Hf. induction l as [|a l IH]; cbn [mapM]; [apply propagates_ret|].
  apply propagates_bind; [apply Hf|]. intros y.
  apply propagates_bind; [apply IH|]. intros ys. apply propagates_ret.
Qed.

Lemma propagates_for {A} (body : A → M ()) (l : list A) :
  (∀ x, propagates (body x)) → propagates (for_ l body).
Proof.
  intros Hb. induction l as [|a l IH]; cbn [for_]; [apply propagates_ret|].
  apply propagates_bind; [apply Hb | intros _; apply IH].
Qed.

Ltac propagate :=
  repeat first
    [ progress intros
    | apply propagates_ret | apply propagates_throw
    | apply propagates_new_model | apply propagates_method
    | apply propagates_getitem | apply propagates_list_getitem
    | apply propagates_lib_call
    | apply propagates_mapM | apply propagates_for
    | apply propagates_bind ].

Ltac unfold_api :=
  unfold Model, AdvModel, m_binary_var_dict, m_binary_var_list, m_sum,
    m_scal_prod, m_scal_prod_vars_all_different, var_times, expr_ge, m_add,
    m_add_constraints, m_minimize, m_end, on_model; cbv zeta.

(** ** Every builder, in every world *)

Lemma bench_table_quiet b cf n w :
  (b, cf) ∈ bench_table → faults w = [] →
  b n w = (Ok (length (models w)), set_models (models w ++ [cf n]) w).
Proof.
  intros Hb Hq. unfold bench_table in Hb.
  repeat (apply elem_of_cons in Hb as [[= -> ->] | Hb]);
    [ by apply build_bench_model1_quiet | by apply build_bench_model2_quiet
    | by apply build_bench_model21_quiet | by apply build_bench_model3_quiet
    | by apply build_bench_model4_quiet | by apply build_bench_model5_quiet
    | by apply build_bench_model6_quiet | by apply build_bench_model7_quiet
    | by apply elem_of_nil in Hb ].
Qed.

Lemma bench_table_propagates b cf n :
  (b, cf) ∈ bench_table → propagates (b n).
Proof.
  intros Hb. unfold bench_table in Hb.
  repeat (apply elem_of_cons in Hb as [[= -> ->] | Hb]);
    [ unfold build_bench_model1 | unfold build_bench_model2
    | unfold build_bench_model21 | unfold build_bench_model3
    | unfold build_bench_model4 | unfold build_bench_model5
    | unfold build_bench_model6 | unfold build_bench_model7
    | by apply elem_of_nil in Hb ];
    unfold_api; propagate.
Qed.

Lemma bench_builders_table b :
  b ∈ bench_builders → ∃ cf, (b, cf) ∈ bench_table.
Proof.
  unfold bench_builders, bench_table. intros Hb.
  repeat (apply elem_of_cons in Hb as [-> | Hb]);
    [ .. | by apply elem_of_nil in Hb ];
    eexists; repeat first [ left | right ].
Qed.

(** A run of a builder either ends with the exception the library raised,
    or returns the handle of one new model, the one of the table. *)
Lemma bench_table_run b cf n w r w' :
  (b, cf) ∈ bench_table → b n w = (r, w') →
  py_same w w'
  ∧ ((r = Ok (length (models w)) ∧ models w' = models w ++ [cf n]
      ∧ raised w' = raised w)
     ∨ (∃ e, r = Raise e ∧ raised w' = raised w ++ [e])).
Proof.
  intros Hb E.
  destruct (bench_table_propagates b cf n Hb _ _ _ E) as [Hs [[Hr Hq] | Hc]].
  - split; [done|]. left.
    rewrite (bench_table_quiet b cf n (quieten w) Hb) in Hq by reflexivity.
    pose proof (f_equal fst Hq) as H1.
    pose proof (f_equal (λ x, models x.2) Hq) as H2. cbn in H1, H2.
    by rewrite <- H1, <- H2.
  - split; [done|]. by right.
Qed.


(** ** The models in closed form *)

Lemma length_range n : length (range n) = Z.to_nat n.
Proof. apply length_seqZ. Qed.

Lemma lookup_range n (i : Z) : 0 ≤ i < n → range n !! Z.to_nat i = Some i.
Proof.
  intros Hi. unfold range. rewrite lookup_seqZ_lt by lia. f_equal. lia.
Qed.

Lemma y_var_indices ign n :
  var_index <$> (y_var ign <$> range n) = seq 0 (Z.to_nat n).
Proof.
  apply list_eq. intros i. rewrite !list_lookup_fmap. unfold range.
  destruct (decide (i < Z.to_nat n)%nat) as [Hi|Hi].
  - rewrite lookup_seqZ_lt by lia. rewrite lookup_seq_lt by lia.
    cbn. f_equal. lia.
  - rewrite lookup_seqZ_ge by lia. rewrite lookup_seq_ge by lia. reflexivity.
Qed.

Lemma coef_graph (c : Z → Z) ign (l : list Z) (j : Z) :
  NoDup l → (∀ x, x ∈ l → 0 ≤ x) → 0 ≤ j →
  coef ((λ x, (y_var ign x, c x)) <$> l) (Z.to_nat j)
  = if decide (j ∈ l) then c j else 0.
Proof.
  intros Hnd Hpos Hj. induction l as [|a l IH]; cbn [fmap list_fmap coef].
  - case_decide as H; [inversion H | reflexivity].
  - apply NoDup_cons in Hnd as [Ha Hnd].
    rewrite IH by (try done; intros; apply Hpos; by right).
    assert (0 ≤ a) by (apply Hpos; left).
    cbn [var_index y_var]. destruct (decide (a = j)) as [->|Hne].
    + rewrite decide_True by done. rewrite (decide_True (P := j ∈ j :: l)) by left.
      rewrite decide_False by done. lia.
    + rewrite decide_False by lia.
      destruct (decide (j ∈ l)).
      * rewrite decide_True by (by right). lia.
      * rewrite decide_False by (by intros [?|?]%elem_of_cons). lia.
Qed.

Lemma coef_scal (c : Z → Z) ign n (j : Z) :
  0 ≤ j < n →
  coef (zip (y_var ign <$> range n) (c <$> range n)) (Z.to_nat j) = c j.
Proof.
  intros Hj. rewrite (zip_with_fmap2 pair).
  rewrite coef_graph; [| apply NoDup_seqZ | | lia].
  - rewrite decide_True; [done|]. apply elem_of_seqZ. lia.
  - intros x Hx. apply elem_of_seqZ in Hx. lia.
Qed.



Lemma scal_builders_table b :
  b ∈ scal_builders →
  ∃ k c nm ign chk, (b, scal_model k c nm ign chk) ∈ bench_table.
Proof.
  unfold scal_builders, bench_table. intros Hb.
  repeat (apply elem_of_cons in Hb as [-> | Hb]);
    [ .. | by apply elem_of_nil in Hb ];
    do 5 eexists; repeat first [ left | right ].
Qed.


Lemma bench_table_built b cf n :
  (b, cf) ∈ bench_table →
  ∃ c nm ign chk cts obj, cf n = built c nm ign chk n (cts <$> range n) obj.
Proof.
  unfold bench_table. intros Hb.
  repeat (apply elem_of_cons in Hb as [[= -> ->] | Hb]);
    [ .. | by apply elem_of_nil in Hb ];
    unfold beginner_model, scal_model; by do 6 eexists.
Qed.

Lemma in_range_keys (n : Z) (e : LinearExpr) :
  (∀ t, t ∈ e → ∃ ign key, 0 ≤ key < n ∧ t.1 = y_var ign key) →
  in_range (Z.to_nat n) e = true.
Proof.
  intros H. unfold in_range, mentions. apply forallb_forall.
  intros v (t & -> & Ht)%list_elem_of_In%list_elem_of_fmap.
  destruct (H t Ht) as (ign & key & Hk & ->).
  apply bool_decide_eq_true. cbn. lia.
Qed.

Lemma in_range_zip ign (n : Z) (cs : list Z) :
  in_range (Z.to_nat n) (zip (y_var ign <$> range n) cs) = true.
Proof.
  apply in_range_keys. intros [y c] Ht. apply elem_of_zip_l in Ht.
  apply list_elem_of_fmap in Ht as (key & -> & Hk%elem_of_seqZ).
  exists ign, key. split; [lia | done].
Qed.

(** The terms of [scal_lhs]: the pairs (variable, coefficient) in the order
    of the keys, without those [scal_prod] leaves out. *)
Lemma filter_graph {A B} (P : B → Prop) `{∀ x, Decision (P x)}
    (f : A → B) (l : list A) :
  filter P (f <$> l) = f <$> filter (λ x, P (f x)) l.
Proof.
  induction l as [|a l IH]; [reflexivity|].
  cbn [fmap list_fmap]. rewrite !filter_cons. fold (f <$> l).
  case_decide; cbn [fmap list_fmap]; by rewrite IH.
Qed.

Lemma scal_lhs_graph k ign n i :
  scal_lhs k ign n i
  = (λ j, (y_var ign j, i + (i + j) `mod` 3))
    <$> (if k then range n
         else filter (λ j, i + (i + j) `mod` 3 ≠ 0) (range n)).
Proof.
  unfold scal_lhs. cbv zeta. destruct k.
  - apply (zip_with_fmap2 pair).
  - unfold scal_terms. rewrite (zip_with_fmap2 pair).
    rewrite (filter_graph (λ t : Var * Z, t.2 ≠ 0)). reflexivity.
Qed.


Lemma scal_lhs_terms k ign n i t :
  t ∈ scal_lhs k ign n i →
  ∃ j, 0 ≤ j < n ∧ t = (y_var ign j, i + (i + j) `mod` 3).
Proof.
  rewrite scal_lhs_graph. intros (j & -> & Hj)%list_elem_of_fmap.
  exists j. split; [|done].
  destruct k; [|apply list_elem_of_filter in Hj as [_ Hj]];
    apply elem_of_seqZ in Hj; lia.
Qed.

Lemma in_range_scal_lhs k ign n i :
  in_range (Z.to_nat n) (scal_lhs k ign n i) = true.
Proof.
  apply in_range_keys. intros t (j & Hj & ->)%scal_lhs_terms.
  by exists ign, j.
Qed.





Lemma built_closed c nm ign chk n (cts : Z → LinearConstraint) obj :
  (∀ i, i ∈ range n → in_range (Z.to_nat n) (ct_lhs (cts i)) = true) →
  in_range (Z.to_nat n) obj = true →
  closed_model (built c nm ign chk n (cts <$> range n) obj) = true.
Proof.
  intros Hc Ho. unfold closed_model. cbn [built variables constraints objective].
  rewrite length_fmap, length_range. apply andb_true_intro. split; [|exact Ho].
  apply forallb_forall.
  intros x (i & -> & Hi)%list_elem_of_In%list_elem_of_fmap. by apply Hc.
Qed.

Lemma bench_table_closed b cf n :
  (b, cf) ∈ bench_table → closed_model (cf n) = true.
Proof.
  unfold bench_table. intros Hb.
  repeat (apply elem_of_cons in Hb as [[= -> ->] | Hb]);
    [ | | | | | | | | by apply elem_of_nil in Hb ].
  1: { apply built_closed.
       - intros i Hi%elem_of_seqZ. apply in_range_keys.
         intros t (j & -> & _)%list_elem_of_fmap. exists false, i. split; [lia | done].
       - apply in_range_keys.
         intros t (k & -> & Hk%elem_of_seqZ)%list_elem_of_fmap.
         exists false, k. split; [lia | done]. }
  all: apply built_closed; [intros i _; apply in_range_scal_lhs|];
    apply in_range_zip.
Qed.


Lemma bench_table_ok b cf n w m w' :
  (b, cf) ∈ bench_table → b n w = (Ok m, w') →
  m = length (models w) ∧ models w' = models w ++ [cf n]
  ∧ models w' !! m = Some (cf n) ∧ py_same w w' ∧ raised w' = raised w.
Proof.
  intros Hb E.
  destruct (bench_table_run _ _ _ _ _ _ Hb E) as [Hs [([= ->] & Hm & Hr) | (e & ? & _)]];
    [|discriminate].
  split; [done|]. split; [done|]. split; [|done].
  rewrite Hm. by apply list_lookup_middle.
Qed.

(** ** The claims about the builders *)

(** C4: for every size [N >= 1], every builder creates exactly [N] binary
    variables, indexed [0..N-1], exactly [N] linear constraints and a linear
    objective to be minimized, all over these variables: this is the content
    of the one model a run that returns has created, and a run returns
    whenever the library does not fail. *)
Theorem builders_create_n_vars_n_cts (b : Z → M handle) (n : Z) w r w' :
  b ∈ bench_builders → 1 ≤ n → b n w = (r, w') →
  (faults w = [] → ∃ m, r = Ok m)
  ∧ ∀ m, r = Ok m →
      m = length (models w)
      ∧ ∃ md, models w' !! m = Some md
          ∧ length (variables md) = Z.to_nat n
          ∧ (∀ v, v ∈ variables md → var_type v = BinaryVarType)
          ∧ var_index <$> variables md = seq 0 (Z.to_nat n)
          ∧ length (constraints md) = Z.to_nat n
          ∧ (∃ e, objective md = Some (Minimize, e))
          ∧ closed_model md = true.
Proof.
  intros [cf Hb]%bench_builders_table Hn E. split.
  - intros Hq. rewrite (bench_table_quiet b cf n w Hb Hq) in E.
    injection E as <- _. by eexists.
  - intros m ->.
    destruct (bench_table_ok _ _ _ _ _ _ Hb E) as (Hm & _ & Hl & _).
    split; [done|]. exists (cf n). split; [done|].
    pose proof (bench_table_closed b cf n Hb) as Hcl.
    destruct (bench_table_built b cf n Hb) as (c & nm & ign & chk & cts & obj & Hcf).
    rewrite Hcf in Hcl |- *.
    cbn [built variables constraints objective].
    rewrite !length_fmap, length_range. repeat split.
    + intros v (key & -> & _)%list_elem_of_fmap. reflexivity.
    + apply y_var_indices.
    + by eexists.
    + exact Hcl.
Qed.


(** C10: in [build_bench_model1] the objective is the sum of the terms
    [ys[k] * rsize[k]], so [y_k] has the coefficient [k] and [y_0] the
    coefficient 0, and the list [rsize1] has no part in it; in the other
    builders the objective is the scalar product of the variables with
    [rsize1], so [y_k] has the coefficient [k+1]. *)
Theorem objective_coefficients (n : Z) w m w' :
  (build_bench_model1 n w = (Ok m, w') →
   ∃ md e, models w' !! m = Some md ∧ objective md = Some (Minimize, e)
     ∧ e = (λ k, (y_var false k, k)) <$> range n
     ∧ (∀ k, 0 ≤ k < n →
          variables md !! Z.to_nat k = Some (y_var false k)
          ∧ coef e (Z.to_nat k) = k)
     ∧ (0 < n → coef e 0 = 0))
  ∧ (∀ b, b ∈ scal_builders → b n w = (Ok m, w') →
     ∃ md e, models w' !! m = Some md ∧ objective md = Some (Minimize, e)
       ∧ e = zip (variables md) ((λ i, i + 1) <$> range n)
       ∧ ∀ k, 0 ≤ k < n → coef e (Z.to_nat k) = k + 1).
Proof.
  split.
  - intros E.
    assert (Hb : (build_bench_model1, beginner_model) ∈ bench_table) by left.
    destruct (bench_table_ok _ _ _ _ _ _ Hb E) as (_ & _ & Hl & _).
    exists (beginner_model n), (beginner_obj n). do 3 (split; [done|]).
    assert (Hc : ∀ k, 0 ≤ k < n → coef (beginner_obj n) (Z.to_nat k) = k).
    { intros k Hk. unfold beginner_obj.
      rewrite (coef_graph (λ k, k)); [| apply NoDup_seqZ | | lia].
      - rewrite decide_True; [done|]. apply elem_of_seqZ. lia.
      - intros x Hx. apply elem_of_seqZ in Hx. lia. }
    split.
    + intros k Hk. split; [|by apply Hc].
      cbn [beginner_model built variables].
      by rewrite list_lookup_fmap, lookup_range.
    + intros Hn. apply (Hc 0). lia.
  - intros b (k0 & c & nm & ign & chk & Hb)%scal_builders_table E.
    destruct (bench_table_ok _ _ _ _ _ _ Hb E) as (_ & _ & Hl & _).
    exists (scal_model k0 c nm ign chk n), (scal_obj ign n). do 3 (split; [done|]).
    intros k Hk. unfold scal_obj. by rewrite (coef_scal (λ i, i + 1)).
Qed.

(** The scalar-product builders all ask for the same mathematical model. *)
Lemma coef_names (l : list Z) (cs : list Z) ign v :
  coef (zip (y_var ign <$> l) cs) v = coef (zip (y_var false <$> l) cs) v.
Proof.
  revert cs. induction l as [|a l IH]; intros [|c cs]; try reflexivity.
  cbn. by rewrite IH.
Qed.

Lemma coef_scal_lhs_names k ign n i v :
  coef (scal_lhs k ign n i) v = coef (scal_lhs false false n i) v.
Proof.
  unfold scal_lhs. cbv zeta. rewrite coef_scal_terms.
  destruct k; [|rewrite coef_scal_terms]; apply coef_names.
Qed.

Lemma scal_model_math k c nm ign chk n :
  math_model (scal_model k c nm ign chk n)
  = math_model (scal_model false ClsModel "bench2" false None n).
Proof.
  unfold math_model, scal_model. cbn [built variables constraints objective].
  rewrite !length_fmap, <- !list_fmap_compose. f_equal; [f_equal|].
  - apply list_fmap_ext. intros _ i _. unfold math_ct, row. cbn.
    f_equal. f_equal. apply list_fmap_ext. intros _ v _.
    apply coef_scal_lhs_names.
  - cbn. do 2 f_equal. apply list_fmap_ext. intros _ v _. apply coef_names.
Qed.

Lemma scal_builders_agree (b1 b2 : Z → M handle) (n : Z) w1 w2 m1 m2 w1' w2' :
  b1 ∈ scal_builders → b2 ∈ scal_builders →
  b1 n w1 = (Ok m1, w1') → b2 n w2 = (Ok m2, w2') →
  math_model <$> models w1' !! m1 = math_model <$> models w2' !! m2.
Proof.
  intros (k1 & c1 & nm1 & ign1 & chk1 & Hb1)%scal_builders_table
         (k2 & c2 & nm2 & ign2 & chk2 & Hb2)%scal_builders_table E1 E2.
  destruct (bench_table_ok _ _ _ _ _ _ Hb1 E1) as (_ & _ & -> & _).
  destruct (bench_table_ok _ _ _ _ _ _ Hb2 E2) as (_ & _ & -> & _).
  cbn. f_equal. by rewrite scal_model_math, (scal_model_math k2).
Qed.

(** At every size [N >= 1] the model of [build_bench_model1] is not the
    one of the other builders: the objectives differ on [y_0]. *)
Lemma beginner_model_differs k c nm ign chk n :
  1 ≤ n →
  math_model (beginner_model n) ≠ math_model (scal_model k c nm ign chk n).
Proof.
  intros Hn Heq.
  apply (f_equal snd) in Heq. unfold math_model in Heq.
  cbn [snd beginner_model scal_model built variables objective fmap option_fmap
       option_map fst] in Heq.
  injection Heq as Heq. rewrite !length_fmap, length_range in Heq.
  apply (f_equal (λ l, l !! 0%nat)) in Heq. unfold row in Heq.
  rewrite !list_lookup_fmap, lookup_seq_lt in Heq by lia.
  cbn [fmap option_fmap option_map] in Heq. injection Heq as Heq.
  change 0%nat with (Z.to_nat 0) in Heq.
  unfold scal_obj in Heq. rewrite (coef_scal (λ i, i + 1)) in Heq by lia.
  unfold beginner_obj in Heq.
  rewrite (coef_graph (λ k, k)) in Heq; [| apply NoDup_seqZ | | lia].
  - rewrite decide_True in Heq; [lia|]. apply elem_of_seqZ. lia.
  - intros x Hx. apply elem_of_seqZ in Hx. lia.
Qed.

(** ** The scoped timer *)

Lemma getattr_ok {A} (self : handle) (attr : TimerObj → A) o w :
  timers w !! self = Some o → getattr self attr w = (Ok (attr o), w).
Proof. intros E. unfold getattr. by rewrite E. Qed.

Lemma setattr_ok (self : handle) (upd : TimerObj → TimerObj) o w :
  timers w !! self = Some o →
  setattr self upd w = (Ok (), set_timers (<[self := upd o]> (timers w)) w).
Proof. intros E. unfold setattr. by rewrite E. Qed.

Lemma lookup_updated (self : handle) (o o' : TimerObj) (ts : list TimerObj) :
  ts !! self = Some o → <[self := o']> ts !! self = Some o'.
Proof. intros E. apply list_lookup_insert_eq. by eapply lookup_lt_Some. Qed.

Lemma enter_run (self : handle) o w :
  timers w !! self = Some o → __enter__ self w = (Ok self, entered self o w).
Proof.
  intros E. unfold __enter__.
  erewrite bind_ok by reflexivity.
  erewrite bind_ok by (by apply setattr_ok).
  reflexivity.
Qed.

Lemma exit_run (self : handle) (args : list PyVal) o w :
  timers w !! self = Some o →
  __exit__ self args w = (Ok PyNone, exited self o w).
Proof.
  intros E. unfold __exit__, getattr_msecs.
  erewrite bind_ok by reflexivity.
  erewrite bind_ok by (by apply getattr_ok).
  erewrite bind_ok by (by apply setattr_ok).
  erewrite bind_ok by (eapply getattr_ok, lookup_updated, E).
  erewrite bind_ok.
  2:{ erewrite bind_ok by (eapply getattr_ok, lookup_updated, E). reflexivity. }
  reflexivity.
Qed.

(** C2: [__enter__] records the current reading of the clock in
    [self.start], changes nothing else and returns the timer itself;
    [__exit__] sets [self.msecs] to the ceiling of 1000 times (the reading
    at exit minus the recorded start) and prints exactly one line, which
    contains [self.msg] and [self.msecs].  Taken together: when the block
    leaves the timer as [__enter__] left it, the time stored and printed at
    exit is the one between the reading at entry and the reading at exit. *)
Theorem timer_enter_exit (self : handle) o w :
  timers w !! self = Some o →
  let now := clock w (ticks w) in
  let ms := elapsed_msecs now (start o) in
  (∃ w1 o1,
      __enter__ self w = (Ok self, w1) ∧ w1 = entered self o w
      ∧ timers w1 !! self = Some o1 ∧ o1 = set_start now o
      ∧ start o1 = now ∧ msg o1 = msg o ∧ msecs o1 = msecs o
      ∧ (∀ k, k ≠ self → timers w1 !! k = timers w !! k)
      ∧ clock w1 = clock w ∧ ticks w1 = S (ticks w) ∧ stdout w1 = stdout w
      ∧ models w1 = models w)
  ∧ (∀ args, ∃ w2 o2,
      __exit__ self args w = (Ok PyNone, w2) ∧ w2 = exited self o w
      ∧ timers w2 !! self = Some o2 ∧ o2 = set_msecs ms o
      ∧ msecs o2
        = Some (fceil (fmul (float_of_int 1000) (fsub now (start o))))
      ∧ start o2 = start o ∧ msg o2 = msg o
      ∧ stdout w2 = stdout w ++ [exit_message (msg o) ms]
      ∧ exit_message (msg o) ms
        = "<-- " +:+ msg o +:+ ",  time: " +:+ fmt_0f ms +:+ " ms"
      ∧ clock w2 = clock w ∧ ticks w2 = S (ticks w))
  ∧ (∀ args w1 wb,
      __enter__ self w = (Ok self, w1) →
      timers wb !! self = timers w1 !! self →
      let later := clock wb (ticks wb) in
      let taken := fceil (fmul (float_of_int 1000) (fsub later now)) in
      ∃ w2 o2,
        __exit__ self args wb = (Ok PyNone, w2)
        ∧ timers w2 !! self = Some o2
        ∧ start o2 = now ∧ msecs o2 = Some taken
        ∧ stdout w2 = stdout wb ++
            ["<-- " +:+ msg o +:+ ",  time: " +:+ fmt_0f taken +:+ " ms"]).
Proof.
  intros E now ms.
  assert (E1 : timers (entered self o w) !! self = Some (set_start now o))
    by (by eapply lookup_updated).
  split; [|split].
  - exists (entered self o w), (set_start now o).
    split; [by apply enter_run|]. do 6 (split; [done|]).
    split; [|done]. intros k Hk. cbn [entered timers set_timers set_ticks].
    by apply list_lookup_insert_ne.
  - intros args. exists (exited self o w), (set_msecs ms o).
    split; [by apply exit_run|]. split; [done|].
    split; [by eapply lookup_updated|]. by repeat split.
  - intros args w1 wb Hin Hb later taken.
    rewrite (enter_run self o w E) in Hin. injection Hin as <-.
    rewrite E1 in Hb.
    exists (exited self (set_start now o) wb),
           (set_msecs (elapsed_msecs later now) (set_start now o)).
    split; [by apply exit_run|].
    split; [by eapply lookup_updated|]. by repeat split.
Qed.

Lemma with_as_run {A} (mgr : handle) (body : handle → M A) w o1 r w2 o2 :
  timers w !! mgr = Some o1 →
  body mgr (entered mgr o1 w) = (r, w2) →
  timers w2 !! mgr = Some o2 →
  with_as mgr body w
  = (match r with Ok a => Ok (mgr, Some a) | Raise e => Raise e end,
     exited mgr o2 w2).
Proof.
  intros E1 Eb E2. unfold with_as. rewrite (enter_run _ _ _ E1), Eb.
  destruct r as [a|e]; rewrite (exit_run _ _ _ _ E2); reflexivity.
Qed.

(** C3: whatever way the block leaves, by returning or by raising, the exit
    action runs: [msecs] is set and the line is printed.  [__exit__] accepts
    any arguments and returns [None], so an exception of the block is raised
    again, unchanged. *)
Theorem timer_exit_on_every_path {A} (mgr : handle) (body : handle → M A) w :
  is_Some (timers w !! mgr) → keeps_timers (body mgr) →
  ∃ o1 r w2 o2,
    timers w !! mgr = Some o1
    ∧ body mgr (entered mgr o1 w) = (r, w2)
    ∧ timers w2 !! mgr = Some o2
    ∧ (∀ args, __exit__ mgr args w2 = (Ok PyNone, exited mgr o2 w2))
    ∧ with_as mgr body w
      = (match r with Ok a => Ok (mgr, Some a) | Raise e => Raise e end,
         exited mgr o2 w2)
    ∧ stdout (exited mgr o2 w2)
      = stdout w2 ++ [exit_message (msg o2)
                        (elapsed_msecs (clock w2 (ticks w2)) (start o2))]
    ∧ msecs <$> timers (exited mgr o2 w2) !! mgr
      = Some (Some (elapsed_msecs (clock w2 (ticks w2)) (start o2))).
Proof.
  intros [o1 E1] Hk.
  destruct (body mgr (entered mgr o1 w)) as [r w2] eqn:Eb.
  assert (is_Some (timers w2 !! mgr)) as [o2 E2].
  { apply lookup_lt_is_Some. apply Hk in Eb. apply lookup_lt_Some in E1.
    cbn in Eb. rewrite length_insert in Eb. lia. }
  exists o1, r, w2, o2. do 3 (split; [done|]).
  split; [intros; by apply exit_run|].
  split.
  - by eapply with_as_run.
  - split; [reflexivity|]. cbn [exited timers set_stdout set_timers].
    by erewrite lookup_updated.
Qed.

Lemma with_ContextTimer_run {A} (msg0 : string) (body : handle → M A) w :
  with_ContextTimer msg0 body w
  = with_as (length (timers w)) body
      (set_timers (timers w ++ [{| msg := msg0; start := float_of_int 0;
                                   msecs := None |}]) w).
Proof. reflexivity. Qed.

(** ** Timed builds *)

Lemma on_model_run {A} (m : handle) (f : ModelObj → A * ModelObj) w r w' :
  on_model m f w = (r, w') →
  py_same w w'
  ∧ ((∃ md, models w !! m = Some md ∧ r = Ok (f md).1
        ∧ models w' = <[m := (f md).2]> (models w) ∧ raised w' = raised w)
     ∨ (∃ e, r = Raise e ∧ raised w' = raised w ++ [e])).
Proof.
  unfold on_model, lib_call, method, lib_raise. intros E.
  destruct (faults w) as [|[e|] fs]; cbn [models set_faults] in E.
  - destruct (models w !! m) as [md|] eqn:El.
    + destruct (f md) as [a md'] eqn:Ef. injection E as <- <-.
      split; [by repeat split|]. left. exists md. by rewrite Ef.
    + injection E as <- <-. split; [by repeat split|]. right. by eexists.
  - injection E as <- <-. split; [by repeat split|]. right. by eexists.
  - destruct (models w !! m) as [md|] eqn:El.
    + destruct (f md) as [a md'] eqn:Ef. injection E as <- <-.
      split; [by repeat split|]. left. exists md. by rewrite Ef.
    + injection E as <- <-. split; [by repeat split|]. right. by eexists.
Qed.

Lemma builders_in_table bf lbl :
  (bf, lbl) ∈ builders → ∃ cf, (call bf, cf) ∈ bench_table.
Proof.
  unfold builders, bench_table. intros Hb.
  repeat (apply elem_of_cons in Hb as [[= -> ->] | Hb]);
    [ .. | by apply elem_of_nil in Hb ];
    eexists; cbn [call]; repeat first [ left | right ].
Qed.

(** Building a model and ending it: the run either ends with the exception
    the library raised, or leaves one new model, ended. *)
Lemma build_and_end_run bf lbl s tt w r w' :
  (bf, lbl) ∈ builders → build_and_end bf s tt w = (r, w') →
  py_same w w'
  ∧ ((∃ md, r = Ok (length (models w))
        ∧ models w' = models w ++ [end_model md] ∧ raised w' = raised w)
     ∨ (∃ e, r = Raise e ∧ raised w' = raised w ++ [e])).
Proof.
  intros [cf Hb]%builders_in_table E. unfold build_and_end in E.
  unfold mbind at 1, M_bind in E.
  destruct (call bf s w) as [[m|e] w1] eqn:E1.
  - destruct (bench_table_ok _ _ _ _ _ _ Hb E1) as (-> & Hm & Hl & Hs & Hr).
    unfold mbind, M_bind, m_end in E.
    destruct (on_model _ _ w1) as [[[]|e] w2] eqn:E2; injection E as <- <-;
      destruct (on_model_run _ _ _ _ _ E2) as [Hs2 Hc];
      (split; [by eapply py_same_trans|]).
    + destruct Hc as [(md & Hl2 & _ & Hm2 & Hr2) | (e & ? & _)]; [|discriminate].
      left. exists (cf s). split; [done|]. split; [|congruence].
      rewrite Hm2, Hm. rewrite insert_app_r_alt by lia.
      rewrite Nat.sub_diag. rewrite Hl in Hl2. injection Hl2 as <-. reflexivity.
    + destruct Hc as [(md & _ & ? & _) | (e' & [= ->] & Hr2)]; [discriminate|].
      right. exists e'. split; [done | congruence].
  - injection E as <- <-.
    destruct (bench_table_run _ _ _ _ _ _ Hb E1) as [Hs [(? & _) | (e' & [= ->] & Hr)]];
      [discriminate|].
    split; [done|]. right. by exists e'.
Qed.

Lemma timed_run {A} (msg0 : string) (body : handle → M A) w r w2 :
  let mgr := length (timers w) in
  let o0 := {| msg := msg0; start := float_of_int 0; msecs := None |} in
  let o1 := set_start (clock w (ticks w)) o0 in
  body mgr (set_timers (timers w ++ [o1]) (set_ticks (S (ticks w)) w)) = (r, w2) →
  timers w2 = timers w ++ [o1] →
  with_ContextTimer msg0 body w
  = (match r with Ok a => Ok (mgr, Some a) | Raise e => Raise e end,
     exited mgr o1 w2).
Proof.
  intros mgr o0 o1 Eb Ht. rewrite with_ContextTimer_run.
  assert (Hin : entered mgr o0 (set_timers (timers w ++ [o0]) w)
                = set_timers (timers w ++ [o1]) (set_ticks (S (ticks w)) w)).
  { unfold entered. cbn [timers set_timers clock ticks set_ticks].
    unfold mgr. rewrite insert_app_r_alt by lia. by rewrite Nat.sub_diag. }
  eapply with_as_run.
  - cbn [timers set_timers]. by apply list_lookup_middle.
  - fold o0. rewrite Hin. exact Eb.
  - rewrite Ht. by apply list_lookup_middle.
Qed.

(** One iteration of the sampling loop, given what its block does. *)
Lemma sample_eq nb s g b bf lbl w r1 w2 :
  let label := run_label (__name__ bf) s (r g + 1) nb in
  let o1 := {| msg := label; start := clock w (ticks w); msecs := None |} in
  let ms := elapsed_msecs (clock w2 (ticks w2)) (clock w (ticks w)) in
  build_and_end bf s (length (timers w))
    (set_timers (timers w ++ [o1]) (set_ticks (S (ticks w)) w)) = (r1, w2) →
  timers w2 = timers w ++ [o1] →
  sample nb s g (b, (bf, lbl)) w
  = (match r1 with
     | Ok _ => Ok {| r := r g + 1; res := <[(b, s) := ms]> (res g);
                     elapsed := Some ms |}
     | Raise e => Raise e
     end, exited (length (timers w)) o1 w2).
Proof.
  intros label o1 ms Eb Hts. unfold sample. fold label.
  pose proof (timed_run label (build_and_end bf s) w r1 w2 Eb Hts) as Hw.
  change (with_ContextTimer label _)
    with (with_ContextTimer label (build_and_end bf s)).
  unfold mbind at 1, M_bind. rewrite Hw.
  destruct r1 as [m|e]; [|reflexivity].
  cbv beta iota zeta delta [fst].
  assert (Hg : ∀ w3, timers w3 = timers (exited (length (timers w)) o1 w2) →
               getattr_msecs (length (timers w)) w3 = (Ok ms, w3)).
  { intros w3 H3. unfold getattr_msecs.
    erewrite bind_ok.
    2:{ apply getattr_ok. rewrite H3. cbn [exited timers set_stdout set_timers].
        rewrite Hts. rewrite insert_app_r_alt by lia.
        rewrite Nat.sub_diag. by apply list_lookup_middle. }
    reflexivity. }
  rewrite (bind_ok _ _ _ _ _ (Hg _ eq_refl)).
  rewrite (bind_ok _ _ _ _ _ (Hg _ eq_refl)).
  reflexivity.
Qed.

Lemma sample_run nb s g b bf lbl w r0 w' :
  (bf, lbl) ∈ builders → sample nb s g (b, (bf, lbl)) w = (r0, w') →
  match r0 with
  | Ok g' => iteration_ok nb s b bf g w g' w'
  | Raise e => raised w' = raised w ++ [e]
  end.
Proof.
  intros Hb E.
  set (label := run_label (__name__ bf) s (r g + 1) nb) in *.
  set (o1 := {| msg := label; start := clock w (ticks w); msecs := None |}).
  set (w1 := set_timers (timers w ++ [o1]) (set_ticks (S (ticks w)) w)).
  destruct (build_and_end bf s (length (timers w)) w1) as [r1 w2] eqn:Eb.
  destruct (build_and_end_run _ _ _ _ _ _ _ Hb Eb) as [(Hc & Ht & Ho & Hts) Hr].
  cbn [w1 clock ticks stdout timers set_timers set_ticks] in Hc, Ht, Ho, Hts.
  rewrite (sample_eq nb s g b bf lbl w r1 w2 Eb Hts) in E.
  destruct Hr as [(md & -> & Hm & Hr) | (e & -> & Hr)]; injection E as <- <-.
  - exists (end_model md), w2. by repeat split.
  - exact Hr.
Qed.

Lemma iteration_ok_facts nb s b bf g w g' w' :
  iteration_ok nb s b bf g w g' w' →
  ∃ md ms,
    models w' = models w ++ [md]
    ∧ ended md = true ∧ variables md = [] ∧ constraints md = []
    ∧ timers w' = timers w ++
        [{| msg := run_label (__name__ bf) s (r g + 1) nb;
            start := clock w (ticks w); msecs := Some ms |}]
    ∧ r g' = r g + 1 ∧ res g' = <[(b, s) := ms]> (res g)
    ∧ elapsed g' = Some ms.
Proof.
  intros (md & w2 & Eb & Hm & He & Hv & Hcs & Hts & -> & ->).
  eexists md, _. split; [exact Hm|]. do 3 (split; [done|]).
  split; [|by repeat split].
  cbn [exited timers set_stdout set_timers]. rewrite Hts.
  rewrite insert_app_r_alt by lia. by rewrite Nat.sub_diag.
Qed.

(** What an iteration that completes does to the world and to the
    variables of the cell. *)
Lemma sample_step nb s g b bf lbl w g' w' :
  (bf, lbl) ∈ builders → sample nb s g (b, (bf, lbl)) w = (Ok g', w') →
  let ms := elapsed_msecs (clock w (S (ticks w))) (clock w (ticks w)) in
  clock w' = clock w ∧ ticks w' = S (S (ticks w))
  ∧ stdout w' = stdout w ++ [exit_message (run_label (__name__ bf) s (r g + 1) nb) ms]
  ∧ r g' = r g + 1 ∧ res g' = <[(b, s) := ms]> (res g) ∧ elapsed g' = Some ms
  ∧ ∃ md, models w' = models w ++ [md]
      ∧ ended md = true ∧ variables md = [] ∧ constraints md = []
      ∧ timers w' = timers w ++
          [{| msg := run_label (__name__ bf) s (r g + 1) nb;
              start := clock w (ticks w); msecs := Some ms |}].
Proof.
  intros Hb E ms. pose proof (sample_run nb s g b bf lbl w _ _ Hb E) as Hi.
  cbv beta iota in Hi.
  destruct Hi as (md & w_out & Hrun & Hm & He & Hv & Hcs & Ht & -> & ->).
  cbv zeta in Hrun, Ht.
  destruct (build_and_end_run bf lbl s _ _ _ _ Hb Hrun) as [(Hc & Hk & Ho & _) _].
  cbn [clock ticks stdout set_timers set_ticks] in Hc, Hk, Ho.
  cbn [exited clock ticks stdout timers models set_stdout set_timers set_ticks
       r res elapsed start msg].
  rewrite Hc, Hk, Ho. do 6 (split; [done|]).
  exists md. do 4 (split; [done|]).
  rewrite Ht, insert_app_r_alt by lia. by rewrite Nat.sub_diag.
Qed.

Lemma sample_quiet nb s g b bf lbl w :
  (bf, lbl) ∈ builders → faults w = [] →
  ∃ g' w', sample nb s g (b, (bf, lbl)) w = (Ok g', w') ∧ faults w' = [].
Proof.
  intros [cf Hb]%builders_in_table Hq.
  set (label := run_label (__name__ bf) s (r g + 1) nb).
  set (o1 := {| msg := label; start := clock w (ticks w); msecs := None |}).
  set (w1 := set_timers (timers w ++ [o1]) (set_ticks (S (ticks w)) w)).
  assert (Eb : build_and_end bf s (length (timers w)) w1
               = (Ok (length (models w)),
                  set_models (models w ++ [end_model (cf s)]) w1)).
  { unfold build_and_end.
    erewrite bind_ok by (by apply (bench_table_quiet _ cf)).
    unfold m_end. erewrite bind_ok by (by apply (on_model_at w1)).
    reflexivity. }
  do 2 eexists. split.
  - by apply (sample_eq nb s g b bf lbl w _ _ Eb).
  - exact Hq.
Qed.

(** ** The sampling loop *)

Lemma foldM_app {A S} (f : S → A → M S) (l1 l2 : list A) (s0 : S) w :
  foldM f s0 (l1 ++ l2) w = (s1 ← foldM f s0 l1; foldM f s1 l2) w.
Proof.
  revert s0 w. induction l1 as [|a l1 IH]; intros s0 w; [reflexivity|].
  cbn [app foldM]. unfold mbind, M_bind.
  destruct (f s0 a w) as [[s1|e] w1]; [apply IH | reflexivity].
Qed.

Lemma foldM_pairs {A B S} (f : S → A * B → M S) (a : A) (l : list B) (s0 : S) w :
  foldM (λ s b, f s (a, b)) s0 l w = foldM f s0 ((λ b, (a, b)) <$> l) w.
Proof.
  revert s0 w. induction l as [|b l IH]; intros s0 w; [reflexivity|].
  cbn [fmap list_fmap foldM]. unfold mbind, M_bind.
  destruct (f s0 (a, b) w) as [[s1|e] w1]; [apply IH | reflexivity].
Qed.

Lemma combos_cons {A} (s : Z) (szs : list Z) (bs : list A) :
  combos (s :: szs) bs = ((λ item, (s, item)) <$> enumerate bs) ++ combos szs bs.
Proof.
  unfold combos. cbn [mbind list_bind]. f_equal.
Qed.

Lemma sampling_loop_flat szs bs nb g w :
  sampling_loop szs bs nb g w = foldM (sample_flat nb) g (combos szs bs) w.
Proof.
  unfold sampling_loop. revert g w.
  induction szs as [|s szs IH]; intros g w; [reflexivity|].
  rewrite combos_cons, foldM_app. cbn [foldM]. unfold mbind, M_bind.
  rewrite (foldM_pairs (sample_flat nb) s).
  destruct (foldM _ g _ w) as [[g1|e] w1]; [apply IH | reflexivity].
Qed.

Lemma combos_builders {A} (szs : list Z) (bs : list A) c :
  c ∈ combos szs bs → c.1 ∈ szs ∧ c.2.2 ∈ bs.
Proof.
  unfold combos. intros (s & (item & Hc & Hi)%list_elem_of_bind & Hs)%list_elem_of_bind.
  apply list_elem_of_singleton in Hc as ->. split; [done|].
  unfold enumerate in Hi. apply list_elem_of_lookup in Hi as [i Hi].
  rewrite list_lookup_imap in Hi.
  destruct (bs !! i) as [x|] eqn:Ex; [|discriminate]. injection Hi as <-.
  cbn. by eapply list_elem_of_lookup_2.
Qed.

Lemma loop_run nb (l : list (Z * (Z * (PyFunction * string)))) g0 w0 g w :
  (∀ c, c ∈ l → c.2.2 ∈ builders) →
  foldM (sample_flat nb) g0 l w0 = (Ok g, w) →
  (∃ new, models w = models w0 ++ new ∧ length new = length l
          ∧ Forall (λ md, ended md = true ∧ variables md = []
                          ∧ constraints md = []) new)
  ∧ r g = r g0 + Z.of_nat (length l)
  ∧ dom (res g) = dom (res g0) ∪ list_to_set (res_key <$> l).
Proof.
  revert g0 w0. induction l as [|c l IH]; intros g0 w0 Hl E.
  - injection E as <- <-. split; [|split].
    + exists []. by rewrite app_nil_r.
    + cbn. lia.
    + cbn [fmap list_fmap list_to_set]. by rewrite (right_id_L ∅ (∪)).
  - cbn [foldM] in E. unfold mbind, M_bind in E.
    destruct (sample_flat nb g0 c w0) as [[g1|e] w1] eqn:E1; [|discriminate].
    destruct c as [s [b [bf lbl]]]. unfold sample_flat in E1. cbn [fst snd] in E1.
    assert (Hb : (bf, lbl) ∈ builders) by (apply (Hl (s, (b, (bf, lbl)))); left).
    pose proof (sample_run _ _ _ _ _ _ _ _ _ Hb E1) as Hi. cbn beta iota in Hi.
    destruct (iteration_ok_facts _ _ _ _ _ _ _ _ Hi)
      as (md & ms & Hm1 & He1 & Hv1 & Hc1 & _ & Hr1 & Hres1 & _).
    destruct (IH g1 w1) as ((new & Hm & Hlen & Hall) & Hr & Hd);
      [intros; apply Hl; by right | exact E |].
    split; [|split].
    + exists (md :: new). rewrite Hm, Hm1, <- app_assoc. cbn [app length].
      split; [done|]. split; [by rewrite Hlen | by constructor].
    + rewrite Hr, Hr1. cbn [length]. lia.
    + rewrite Hd, Hres1, dom_insert_L.
      cbn [fmap list_fmap list_to_set res_key fst snd].
      by rewrite (comm_L (∪) {[(b, s)]}), <- (assoc_L (∪)).
Qed.

Lemma loop_quiet nb (l : list (Z * (Z * (PyFunction * string)))) g0 w0 :
  (∀ c, c ∈ l → c.2.2 ∈ builders) → faults w0 = [] →
  ∃ g w, foldM (sample_flat nb) g0 l w0 = (Ok g, w) ∧ faults w = [].
Proof.
  revert g0 w0. induction l as [|c l IH]; intros g0 w0 Hl Hq.
  - by exists g0, w0.
  - destruct c as [s [b [bf lbl]]].
    assert (Hb : (bf, lbl) ∈ builders) by (apply (Hl (s, (b, (bf, lbl)))); left).
    destruct (sample_quiet nb s g0 b bf lbl w0 Hb Hq) as (g1 & w1 & E1 & Hq1).
    destruct (IH g1 w1) as (g & w & E & Hq2);
      [intros; apply Hl; by right | exact Hq1 |].
    exists g, w. split; [|exact Hq2].
    cbn [foldM]. unfold sample_flat at 1. cbn [fst snd].
    by erewrite bind_ok by exact E1.
Qed.

Lemma length_combos {A} (szs : list Z) (bs : list A) :
  length (combos szs bs) = (length szs * length bs)%nat.
Proof.
  induction szs as [|s szs IH]; [reflexivity|].
  rewrite combos_cons, length_app, length_fmap. unfold enumerate.
  rewrite length_imap, IH. cbn [length]. lia.
Qed.

Lemma combos_lookup {A} (szs : list Z) (bs : list A) i s j x :
  szs !! i = Some s → bs !! j = Some x →
  combos szs bs !! (i * length bs + j)%nat = Some (s, (Z.of_nat j, x)).
Proof.
  intros Hs Hx. pose proof (lookup_lt_Some _ _ _ Hx) as Hj.
  revert i Hs. induction szs as [|s' szs IH]; intros i Hs; [done|].
  rewrite combos_cons. destruct i as [|i]; cbn in Hs.
  - injection Hs as ->. rewrite lookup_app_l.
    + rewrite list_lookup_fmap. unfold enumerate.
      rewrite list_lookup_imap. cbn. by rewrite Hx.
    + rewrite length_fmap. unfold enumerate. rewrite length_imap. cbn. lia.
  - rewrite lookup_app_r.
    + rewrite length_fmap. unfold enumerate at 1. rewrite length_imap.
      replace (S i * length bs + j - length bs)%nat
        with (i * length bs + j)%nat by lia.
      by apply IH.
    + rewrite length_fmap. unfold enumerate. rewrite length_imap. lia.
Qed.

Lemma combos_keys_NoDup {A} (szs : list Z) (bs : list A) :
  NoDup szs → NoDup (res_key <$> combos szs bs).
Proof.
  induction 1 as [|s szs Hs Hnd IH]; [constructor|].
  rewrite combos_cons, fmap_app, NoDup_app. split; [|split; [|exact IH]].
  - apply NoDup_alt. intros i j key Hi Hj.
    rewrite !list_lookup_fmap in Hi, Hj. unfold enumerate in Hi, Hj.
    rewrite list_lookup_imap in Hi, Hj.
    destruct (bs !! i); [|discriminate]. destruct (bs !! j); [|discriminate].
    cbn in Hi, Hj. rewrite <- Hj in Hi. injection Hi as Hi. lia.
  - intros key (c1 & -> & (item & -> & _)%list_elem_of_fmap)%list_elem_of_fmap
      (c2 & Hk & Hc2%combos_builders)%list_elem_of_fmap.
    unfold res_key in Hk. cbn in Hk. injection Hk as _ Hk.
    apply Hs. rewrite Hk. tauto.
Qed.

Lemma combos_keys {A} (szs : list Z) (bs : list A) (key : Z * Z) :
  key ∈ res_key <$> combos szs bs
  ↔ 0 ≤ key.1 < Z.of_nat (length bs) ∧ key.2 ∈ szs.
Proof.
  split.
  - intros (c & -> & Hin)%list_elem_of_fmap.
    pose proof (combos_builders _ _ _ Hin) as [Hs _]. split; [|exact Hs].
    unfold combos in Hin.
    apply list_elem_of_bind in Hin as (s' & (item & Hc' & Hi)%list_elem_of_bind & _).
    apply list_elem_of_singleton in Hc' as ->. cbn [res_key fst snd].
    unfold enumerate in Hi. apply list_elem_of_lookup in Hi as [k Hi].
    rewrite list_lookup_imap in Hi.
    destruct (bs !! k) as [x|] eqn:Ex; [|discriminate]. injection Hi as <-.
    apply lookup_lt_Some in Ex. cbn [fst snd]. lia.
  - destruct key as [b s]. cbn [fst snd]. intros [Hb [i Hi]%list_elem_of_lookup].
    destruct (lookup_lt_is_Some_2 bs (Z.to_nat b)) as [x Hx]; [lia|].
    apply list_elem_of_fmap. exists (s, (Z.of_nat (Z.to_nat b), x)). split.
    + unfold res_key. cbn [fst snd]. f_equal. lia.
    + eapply list_elem_of_lookup_2. by apply combos_lookup.
Qed.

(** C7: the iterations of the sampling loop are the pairs of a size and a
    builder, each size in turn with each of the six numbered builders.  The
    block the timer times is the build followed by [end], and an iteration
    that completes has created one model and ended it, which leaves the model
    empty: at the start of every iteration, all the models the loop has
    created are ended.  What an iteration keeps is the time measured, stored
    in [res] under the key (builder index, size), so that after a complete
    run [res] has gained exactly the keys (builder index, size); an
    iteration cut short by an exception of the library ends the loop. *)
Theorem sampling_loop_ends_models (szs : list Z) (nb : Z) g0 w0 :
  length (combos szs builders) = (length szs * 6)%nat
  ∧ (∀ i s j item, szs !! i = Some s → builders !! j = Some item →
       combos szs builders !! (i * 6 + j)%nat = Some (s, (Z.of_nat j, item)))
  ∧ (∀ w, sampling_loop szs builders nb g0 w
          = foldM (sample_flat nb) g0 (combos szs builders) w)
  ∧ (∀ s g b bf lbl,
       sample nb s g (b, (bf, lbl))
       = (blk ← with_ContextTimer (run_label (__name__ bf) s (r g + 1) nb)
                  (build_and_end bf s);
          elapsed1 ← getattr_msecs blk.1;
          ms ← getattr_msecs blk.1;
          mret {| r := r g + 1; res := <[(b, s) := ms]> (res g);
                  elapsed := Some elapsed1 |}))
  ∧ (faults w0 = [] → ∃ g w, sampling_loop szs builders nb g0 w0 = (Ok g, w))
  ∧ (∀ done todo g w,
      combos szs builders = done ++ todo →
      foldM (sample_flat nb) g0 done w0 = (Ok g, w) →
      (∃ new, models w = models w0 ++ new ∧ length new = length done
              ∧ Forall (λ md, ended md = true ∧ variables md = []
                              ∧ constraints md = []) new)
      ∧ dom (res g) = dom (res g0) ∪ list_to_set (res_key <$> done)
      ∧ ∀ s b bf lbl rest r1 w',
          todo = (s, (b, (bf, lbl))) :: rest →
          sample nb s g (b, (bf, lbl)) w = (r1, w') →
          match r1 with
          | Ok g' =>
            iteration_ok nb s b bf g w g' w'
            ∧ ∃ md,
                let ms := elapsed_msecs (clock w (S (ticks w)))
                            (clock w (ticks w)) in
                models w' = models w ++ [md]
                ∧ ended md = true ∧ variables md = [] ∧ constraints md = []
                ∧ r g' = r g + 1
                ∧ res g' = <[(b, s) := ms]> (res g)
                ∧ elapsed g' = Some ms
                ∧ timers w' = timers w ++
                    [{| msg := run_label (__name__ bf) s (r g + 1) nb;
                        start := clock w (ticks w); msecs := Some ms |}]
          | Raise e => raised w' = raised w ++ [e]
          end)
  ∧ (∀ g w,
      sampling_loop szs builders nb g0 w0 = (Ok g, w) →
      (∃ new, models w = models w0 ++ new
              ∧ length new = (length szs * 6)%nat
              ∧ Forall (λ md, ended md = true ∧ variables md = []
                              ∧ constraints md = []) new)
      ∧ r g = r g0 + Z.of_nat (length szs * 6)
      ∧ ∀ b s, (b, s) ∈ dom (res g)
               ↔ (b, s) ∈ dom (res g0) ∨ (0 ≤ b < 6 ∧ s ∈ szs)).
Proof.
  assert (Hall : ∀ c, c ∈ combos szs builders → c.2.2 ∈ builders)
    by (intros c Hc; apply combos_builders in Hc; tauto).
  split; [apply (length_combos szs builders)|].
  split; [intros i s j item; apply (combos_lookup szs builders)|].
  split; [intros; apply sampling_loop_flat|].
  split; [reflexivity|]. split; [|split].
  - intros Hq. destruct (loop_quiet nb _ g0 w0 Hall Hq) as (g & w & E & _).
    exists g, w. by rewrite sampling_loop_flat.
  - intros done todo g w Hsplit E.
    assert (Hd : ∀ c, c ∈ done → c.2.2 ∈ builders).
    { intros c Hc. apply Hall. rewrite Hsplit. apply elem_of_app. by left. }
    destruct (loop_run nb done g0 w0 g w Hd E) as (Hnew & _ & Hdom).
    split; [exact Hnew|]. split; [exact Hdom|].
    intros s b bf lbl rest r1 w' -> E1.
    assert (Hb : (bf, lbl) ∈ builders).
    { apply (Hall (s, (b, (bf, lbl)))). rewrite Hsplit.
      apply elem_of_app. right. left. }
    pose proof (sample_run nb s g b bf lbl w r1 w' Hb E1) as Hi.
    destruct r1 as [g'|e]; [|exact Hi]. split; [exact Hi|].
    destruct (sample_step nb s g b bf lbl w g' w' Hb E1)
      as (_ & _ & _ & Hr & Hres & Hel & md & Hm & He & Hv & Hc & Ht).
    exists md. cbv zeta. by repeat split.
  - intros g w E. rewrite sampling_loop_flat in E.
    destruct (loop_run nb _ g0 w0 g w Hall E) as (Hnew & Hr & Hdom).
    rewrite (length_combos szs builders) in Hnew, Hr.
    split; [exact Hnew|]. split; [exact Hr|].
    intros b s. rewrite Hdom, elem_of_union, elem_of_list_to_set.
    by rewrite (combos_keys szs builders (b, s)).
Qed.



(** The cell itself, with the notebook's sizes and builders: when the
    library does not fail it runs its 36 iterations, fills [res] with their
    36 keys and leaves every model it created ended. *)
Lemma sampling_cell_completes w :
  faults w = [] →
  ∃ g w' new,
    sampling_cell w = (Ok g, w')
    ∧ r g = 36
    ∧ dom (res g) = list_to_set (res_key <$> combos sizes builders)
    ∧ models w' = models w ++ new ∧ length new = 36%nat
    ∧ Forall (λ md, ended md = true ∧ variables md = []
                    ∧ constraints md = []) new.
Proof.
  intros Hq. unfold sampling_cell. cbv zeta.
  assert (Hall : ∀ c, c ∈ combos sizes builders → c.2.2 ∈ builders)
    by (intros c Hc; apply combos_builders in Hc; tauto).
  set (nb := Z.of_nat (length sizes) * Z.of_nat (length builders)).
  set (g0 := {| r := 0; res := ∅; elapsed := None |}).
  set (w2 := set_stdout ((stdout w ++ ["* start computing performance data"])
                           ++ ["* start computing results..."]) w).
  destruct (loop_quiet nb _ g0 w2 Hall Hq) as (g & w3 & E & _).
  destruct (loop_run nb _ g0 w2 g w3 Hall E) as ((new & Hm & Hlen & Hended) & Hr & Hd).
  exists g, (set_stdout (stdout w3 ++ ["* end computing results"]) w3), new.
  split.
  - erewrite bind_ok by reflexivity. erewrite bind_ok by reflexivity.
    erewrite bind_ok by (rewrite sampling_loop_flat; exact E). reflexivity.
  - split; [rewrite Hr; reflexivity|].
    split; [rewrite Hd; cbn [g0 res]; by rewrite dom_empty_L, (left_id_L ∅ (∪))|].
    split; [exact Hm|]. split; [rewrite Hlen; reflexivity | exact Hended].
Qed.

Lemma timed_build_run (b : Z → M handle) cf n msg0 w tt m w' :
  (b, cf) ∈ bench_table →
  with_ContextTimer msg0 (λ _, b n) w = (Ok (tt, Some m), w') →
  models w' = models w ++ [cf n] ∧ models w' !! m = Some (cf n).
Proof.
  intros Hb E.
  set (o1 := set_start (clock w (ticks w))
               {| msg := msg0; start := float_of_int 0; msecs := None |}).
  set (w1 := set_timers (timers w ++ [o1]) (set_ticks (S (ticks w)) w)).
  destruct (b n w1) as [r1 w2] eqn:Eb.
  destruct (bench_table_run _ _ _ _ _ _ Hb Eb) as [(_ & _ & _ & Hts) Hr].
  rewrite (timed_run msg0 (λ _, b n) w r1 w2 Eb Hts) in E.
  destruct Hr as [(-> & Hm & _) | (e & -> & _)]; [|discriminate].
  injection E as _ <- <-. cbn [exited models set_stdout set_timers set_ticks].
  split; [exact Hm|]. rewrite Hm. by apply list_lookup_middle.
Qed.

(** C6: a builder is deterministic in its size: two runs that return, in
    any two worlds, leave the same model; a run only adds that model to the
    library, and leaves the models that were there, the clock, the output
    and the timers as they were; a run inside the block of a timer leaves
    that same model, whatever the clock reads. *)
Theorem builders_deterministic (b : Z → M handle) (n : Z) w1 w2 m1 m2 w1' w2' :
  b ∈ bench_builders →
  b n w1 = (Ok m1, w1') → b n w2 = (Ok m2, w2') →
  ∃ md,
    models w1' !! m1 = Some md ∧ models w2' !! m2 = Some md
    ∧ models w1' = models w1 ++ [md] ∧ models w2' = models w2 ++ [md]
    ∧ py_same w1 w1' ∧ py_same w2 w2'
    ∧ ∀ msg0 w tt m w',
        with_ContextTimer msg0 (λ _, b n) w = (Ok (tt, Some m), w') →
        models w' = models w ++ [md] ∧ models w' !! m = Some md.
Proof.
  intros [cf Hb]%bench_builders_table E1 E2.
  destruct (bench_table_ok _ _ _ _ _ _ Hb E1) as (_ & Hm1 & Hl1 & Hs1 & _).
  destruct (bench_table_ok _ _ _ _ _ _ Hb E2) as (_ & Hm2 & Hl2 & Hs2 & _).
  exists (cf n). do 6 (split; [done|]).
  intros msg0 w tt m w'. by apply timed_build_run.
Qed.

End Properties.

(** * Further properties *)

(** ** [fib]: growth and cost *)

Lemma fib_profile_step n :
  fib_profile n
  = if decide (n ≤ 2) then {| fib_value := 1; fib_calls := 1; fib_depth := 1 |}
    else {| fib_value := fib_value (fib_profile (n - 1)) + fib_value (fib_profile (n - 2));
            fib_calls := 1 + fib_calls (fib_profile (n - 1)) + fib_calls (fib_profile (n - 2));
            fib_depth := 1 + Z.max (fib_depth (fib_profile (n - 1)))
                               (fib_depth (fib_profile (n - 2))) |}.
Proof.
  rewrite (fib_profile_equation_1 n).
  destruct (Z_le_gt_dec n 2); simpl; case_decide; (lia || reflexivity).
Qed.

(** Induction along the calls of [fib]. *)
Lemma fib_ind (P : Z → Prop) :
  (∀ n, n ≤ 2 → P n) →
  (∀ n, 2 < n → P (n - 1) → P (n - 2) → P n) →
  ∀ n, P n.
Proof.
  intros Hbase Hstep n.
  assert (G : ∀ k : nat, ∀ m, m ≤ Z.of_nat k → P m).
  { induction k as [|k IH]; intros m Hm.
    - apply Hbase. lia.
    - destruct (decide (m ≤ 2)); [by apply Hbase|].
      apply Hstep; [lia | apply IH; lia | apply IH; lia]. }
  apply (G (Z.to_nat n + 3)%nat). lia.
Qed.

Lemma fib_pos n : 1 ≤ fib n.
Proof.
  induction n as [n Hn | n Hn IH1 IH2] using fib_ind; rewrite fib_step.
  - by rewrite decide_True.
  - rewrite decide_False by lia. lia.
Qed.

Lemma fib_succ_le n : fib n ≤ fib (n + 1).
Proof.
  rewrite (fib_step (n + 1)). case_decide as H.
  - rewrite fib_step, decide_True by lia. lia.
  - replace (n + 1 - 1) with n by lia. pose proof (fib_pos (n + 1 - 2)). lia.
Qed.

Lemma fib_succ_lt n : 2 ≤ n → fib n < fib (n + 1).
Proof.
  intros Hn. rewrite (fib_step (n + 1)), decide_False by lia.
  replace (n + 1 - 1) with n by lia. pose proof (fib_pos (n + 1 - 2)). lia.
Qed.

(** X1: [fib] never returns less than 1, it is monotone on all the
    integers and strictly increasing from 2 on. *)
Theorem fib_monotone :
  (∀ n, 1 ≤ fib n)
  ∧ (∀ n m, n ≤ m → fib n ≤ fib m)
  ∧ (∀ n m, 2 ≤ n → n < m → fib n < fib m).
Proof.
  split; [exact fib_pos|]. split.
  - intros n m Hnm. replace m with (n + Z.of_nat (Z.to_nat (m - n))) by lia.
    induction (Z.to_nat (m - n)) as [|k IH].
    + replace (n + Z.of_nat 0) with n by lia. lia.
    + replace (n + Z.of_nat (S k)) with (n + Z.of_nat k + 1) by lia.
      pose proof (fib_succ_le (n + Z.of_nat k)). lia.
  - intros n m Hn Hnm. replace m with (n + 1 + Z.of_nat (Z.to_nat (m - n - 1))) by lia.
    induction (Z.to_nat (m - n - 1)) as [|k IH].
    + replace (n + 1 + Z.of_nat 0) with (n + 1) by lia. by apply fib_succ_lt.
    + replace (n + 1 + Z.of_nat (S k)) with (n + 1 + Z.of_nat k + 1) by lia.
      pose proof (fib_succ_le (n + 1 + Z.of_nat k)). lia.
Qed.


(** X2: evaluating [fib(n)] returns [fib n] after [2 fib(n) - 1] calls of
    [fib], nested [n - 1] deep (one deep when [n <= 2]). *)
Theorem fib_profile_cost n :
  fib_value (fib_profile n) = fib n
  ∧ fib_calls (fib_profile n) = 2 * fib n - 1
  ∧ fib_depth (fib_profile n) = Z.max 1 (n - 1).
Proof.
  induction n as [n Hn | n Hn (V1 & C1 & D1) (V2 & C2 & D2)] using fib_ind;
    rewrite fib_profile_step, fib_step.
  - rewrite !decide_True by lia. cbn. lia.
  - rewrite !decide_False by lia. cbn [fib_value fib_calls fib_depth].
    rewrite V1, V2, C1, C2, D1, D2. lia.
Qed.

(** ** The models the builders ask for *)

Section Coverage.
Context {F : PyFloat}.
Implicit Types (w : World) (md : ModelObj) (o : TimerObj).

(** ** More on the models of the builders *)

Lemma bench_table_cases b cf :
  (b, cf) ∈ bench_table →
  cf = beginner_model ∨ ∃ k c nm ign chk, cf = scal_model k c nm ign chk.
Proof.
  unfold bench_table. intros Hb.
  repeat (apply elem_of_cons in Hb as [[= -> ->] | Hb]);
    [ by left | .. | by apply elem_of_nil in Hb ];
    right; by do 5 eexists.
Qed.

Lemma range_nonpos n : n ≤ 0 → range n = [].
Proof. apply seqZ_nil. Qed.

(** X3: at a size [N <= 0] (zero or negative) every builder asks for the
    empty model: no variable, no constraint, and the empty sum as the
    objective to minimize. *)
Theorem builders_at_nonpositive_size (b : Z → M handle) (n : Z) w m w' :
  b ∈ bench_builders → n ≤ 0 → b n w = (Ok m, w') →
  ∃ md, models w' !! m = Some md
      ∧ variables md = [] ∧ constraints md = []
      ∧ objective md = Some (Minimize, []).
Proof.
  intros [cf Hb]%bench_builders_table Hn E.
  destruct (bench_table_ok _ _ _ _ _ _ Hb E) as (_ & _ & Hl & _).
  exists (cf n). split; [exact Hl|].
  destruct (bench_table_cases b cf Hb) as [-> | (k & c & nm & ign & chk & ->)].
  - unfold beginner_model, built, beginner_obj. rewrite (range_nonpos n Hn).
    by repeat split.
  - unfold scal_model, built, scal_obj. rewrite (range_nonpos n Hn).
    by repeat split.
Qed.

(** *** Names *)

Lemma ct_name_inj : Inj (=) (=) (λ i : Z, Some ("ct_" +:+ pretty i)).
Proof. intros i j [= H]. by apply (inj pretty). Qed.

Lemma y_name_inj : Inj (=) (=) (λ i : Z, Some ("y_" +:+ pretty i)).
Proof. intros i j [= H]. by apply (inj pretty). Qed.

Lemma named_builders_table b :
  b ∈ [build_bench_model1; build_bench_model2; build_bench_model21;
       build_bench_model3; build_bench_model4] →
  ∃ cf, (b, cf) ∈ bench_table
      ∧ (cf = beginner_model ∨ ∃ k c nm chk, cf = scal_model k c nm false chk).
Proof.
  unfold bench_table. intros Hb.
  repeat (apply elem_of_cons in Hb as [-> | Hb]);
    [ .. | by apply elem_of_nil in Hb ];
    eexists; (split; [repeat first [ left | right ] |]);
    first [ by left | right; by do 4 eexists ].
Qed.

Lemma unnamed_builders_table b :
  b ∈ [build_bench_model5; build_bench_model6; build_bench_model7] →
  ∃ k c nm chk, (b, scal_model k c nm true chk) ∈ bench_table.
Proof.
  unfold bench_table. intros Hb.
  repeat (apply elem_of_cons in Hb as [-> | Hb]);
    [ .. | by apply elem_of_nil in Hb ];
    do 4 eexists; repeat first [ left | right ].
Qed.

(** X4: builders 1 to 4 name the variable of key [i] [y_i] and the
    constraint [i] [ct_i], so that no two variables and no two constraints
    of a model share a name; builders 5 to 7 ([ignore_names=True]) leave
    every variable and every constraint without a name. *)
Theorem builders_names (b : Z → M handle) (n : Z) w m w' :
  b n w = (Ok m, w') →
  (b ∈ [build_bench_model1; build_bench_model2; build_bench_model21;
        build_bench_model3; build_bench_model4] →
   ∃ md, models w' !! m = Some md
     ∧ var_name <$> variables md = (λ i, Some ("y_" +:+ pretty i)) <$> range n
     ∧ ct_name <$> constraints md = (λ i, Some ("ct_" +:+ pretty i)) <$> range n
     ∧ NoDup (var_name <$> variables md)
     ∧ NoDup (ct_name <$> constraints md))
  ∧ (b ∈ [build_bench_model5; build_bench_model6; build_bench_model7] →
     ∃ md, models w' !! m = Some md
       ∧ (∀ v, v ∈ variables md → var_name v = None)
       ∧ (∀ c, c ∈ constraints md → ct_name c = None)).
Proof.
  intros E. split.
  - intros (cf & Hb & Hcf)%named_builders_table.
    destruct (bench_table_ok _ _ _ _ _ _ Hb E) as (_ & _ & Hl & _).
    exists (cf n). split; [exact Hl|].
    assert (Hv : var_name <$> variables (cf n)
                 = (λ i, Some ("y_" +:+ pretty i)) <$> range n).
    { destruct Hcf as [-> | (k & c & nm & chk & ->)];
        cbn [beginner_model scal_model built variables];
        by rewrite <- list_fmap_compose. }
    assert (Hc : ct_name <$> constraints (cf n)
                 = (λ i, Some ("ct_" +:+ pretty i)) <$> range n).
    { destruct Hcf as [-> | (k & c & nm & chk & ->)];
        cbn [beginner_model scal_model built constraints];
        by rewrite <- list_fmap_compose. }
    rewrite Hv, Hc. do 2 (split; [reflexivity|]).
    split; (apply NoDup_fmap_2; [|apply NoDup_seqZ]);
      [apply y_name_inj | apply ct_name_inj].
  - intros (k & c & nm & chk & Hb)%unnamed_builders_table.
    destruct (bench_table_ok _ _ _ _ _ _ Hb E) as (_ & _ & Hl & _).
    exists (scal_model k c nm true chk n). split; [exact Hl|].
    cbn [scal_model built variables constraints]. split.
    + by intros v (i & -> & _)%list_elem_of_fmap.
    + by intros ct (i & -> & _)%list_elem_of_fmap.
Qed.

(** *** Feasible points *)

Lemma sumZ_ge (f : Z → Z) (a : Z) (l : list Z) :
  0 ≤ a → l ≠ [] → (∀ x, x ∈ l → a ≤ f x) → a ≤ sumZ (f <$> l).
Proof.
  intros Ha Hne Hf.
  assert (G : ∀ l', (∀ x, x ∈ l' → a ≤ f x) → 0 ≤ sumZ (f <$> l')).
  { induction l' as [|x l' IH]; intros H; cbn; [lia|].
    pose proof (H x ltac:(left)). fold (sumZ (f <$> l')).
    pose proof (IH ltac:(intros; apply H; by right)). lia. }
  destruct l as [|x l]; [done|]. cbn. fold (sumZ (f <$> l)).
  pose proof (Hf x ltac:(left)).
  pose proof (G l ltac:(intros; apply Hf; by right)). lia.
Qed.

Lemma sumZ_zero {A} (f : A → Z) (l : list A) :
  (∀ x, x ∈ l → f x = 0) → sumZ (f <$> l) = 0.
Proof.
  induction l as [|x l IH]; intros H; cbn; [done|]. fold (sumZ (f <$> l)).
  rewrite (H x) by left. rewrite IH; [done|]. intros; apply H; by right.
Qed.

Lemma expr_value_scal (y : nat → Z) ign (c : Z → Z) (l : list Z) :
  expr_value y (zip (y_var ign <$> l) (c <$> l))
  = sumZ ((λ j, c j * y (Z.to_nat j)) <$> l).
Proof.
  unfold expr_value. rewrite (zip_with_fmap2 pair), <- list_fmap_compose.
  reflexivity.
Qed.

Lemma expr_value_nonzero_terms (y : nat → Z) (e : list (Var * Z)) :
  expr_value y (filter (λ t, t.2 ≠ 0) e) = expr_value y e.
Proof.
  unfold expr_value. induction e as [|[x c] e IH]; [reflexivity|].
  rewrite filter_cons. cbn [snd]. case_decide as Hc; cbn [fmap list_fmap sumZ foldr].
  - f_equal. exact IH.
  - fold (sumZ ((λ t, t.2 * y (var_index t.1)) <$> e)). rewrite <- IH.
    assert (c = 0) as -> by lia. cbn. lia.
Qed.

Lemma expr_value_scal_lhs (y : nat → Z) k ign n i :
  expr_value y (scal_lhs k ign n i)
  = sumZ ((λ j, (i + (i + j) `mod` 3) * y (Z.to_nat j)) <$> range n).
Proof.
  unfold scal_lhs. cbv zeta.
  destruct k; [|unfold scal_terms; rewrite expr_value_nonzero_terms];
    apply (expr_value_scal y ign (λ j, i + (i + j) `mod` 3)).
Qed.

Lemma expr_value_one_var (y : nat → Z) (v : Var) (c : Z → Z) (l : list Z) :
  expr_value y ((λ j, (v, c j)) <$> l)
  = sumZ ((λ j, c j * y (var_index v)) <$> l).
Proof. unfold expr_value. by rewrite <- list_fmap_compose. Qed.

Lemma sumZ_only_y0 (c : Z → Z) (n : Z) :
  1 ≤ n → sumZ ((λ j, c j * only_y0 (Z.to_nat j)) <$> range n) = c 0.
Proof.
  intros Hn. unfold range. rewrite seqZ_cons by lia. cbn [fmap list_fmap sumZ foldr].
  fold (sumZ ((λ j, c j * only_y0 (Z.to_nat j)) <$> seqZ (Z.succ 0) (Z.pred n))).
  rewrite sumZ_zero.
  - unfold only_y0. rewrite decide_True by done. lia.
  - intros x Hx%elem_of_seqZ. unfold only_y0. rewrite decide_False by lia. lia.
Qed.

Lemma row_sum_ge (n i : Z) :
  0 ≤ i < n → i ≤ sumZ ((λ j, (i + (i + j) `mod` 3) * 1) <$> range n).
Proof.
  intros Hi. apply sumZ_ge; [lia | |].
  - unfold range. rewrite seqZ_cons by lia. done.
  - intros j _. pose proof (Z.mod_pos_bound (i + j) 3). lia.
Qed.

(** X5: the models are feasible: with every variable at 1 all the
    constraints of every builder's model hold.  With only [y_0] at 1 all the
    constraints of the scalar-product builders hold and their objective is
    1, while the constraint [ct_1] of [build_bench_model1] fails: the first
    builder's model has another feasible set. *)
Theorem benchmark_models_feasible (b : Z → M handle) (n : Z) w m w' :
  b n w = (Ok m, w') →
  (b ∈ bench_builders →
   ∃ md, models w' !! m = Some md
       ∧ ∀ c, c ∈ constraints md → satisfies all_ones c)
  ∧ (b ∈ scal_builders →
     ∃ md e, models w' !! m = Some md
       ∧ (∀ c, c ∈ constraints md → satisfies only_y0 c)
       ∧ objective md = Some (Minimize, e)
       ∧ (1 ≤ n → expr_value only_y0 e = 1))
  ∧ (b = build_bench_model1 → 2 ≤ n →
     ∃ md c, models w' !! m = Some md
       ∧ constraints md !! 1%nat = Some c
       ∧ ¬ satisfies only_y0 c).
Proof.
  intros E. split; [|split].
  - intros [cf Hb]%bench_builders_table.
    destruct (bench_table_ok _ _ _ _ _ _ Hb E) as (_ & _ & Hl & _).
    exists (cf n). split; [exact Hl|].
    destruct (bench_table_cases b cf Hb) as [-> | (k & c & nm & ign & chk & ->)];
      cbn [beginner_model scal_model built constraints];
      intros ct (i & -> & Hi%elem_of_seqZ)%list_elem_of_fmap;
      unfold satisfies; cbn [beginner_ct scal_ct ct_sense ct_rhs ct_lhs].
    + rewrite (expr_value_one_var all_ones _ (λ j, i + (i + j) `mod` 3)).
      apply row_sum_ge. lia.
    + rewrite expr_value_scal_lhs.
      apply row_sum_ge. lia.
  - intros (k & c & nm & ign & chk & Hb)%scal_builders_table.
    destruct (bench_table_ok _ _ _ _ _ _ Hb E) as (_ & _ & Hl & _).
    exists (scal_model k c nm ign chk n), (scal_obj ign n). split; [exact Hl|].
    cbn [scal_model built constraints objective]. split; [|split; [done|]].
    + intros ct (i & -> & Hi%elem_of_seqZ)%list_elem_of_fmap.
      unfold satisfies; cbn [scal_ct ct_sense ct_rhs ct_lhs].
      rewrite expr_value_scal_lhs.
      rewrite (sumZ_only_y0 (λ j, i + (i + j) `mod` 3)) by lia.
      pose proof (Z.mod_pos_bound (i + 0) 3). lia.
    + intros Hn. unfold scal_obj.
      rewrite (expr_value_scal only_y0 ign (λ i, i + 1)).
      by rewrite sumZ_only_y0.
  - intros -> Hn.
    assert (Hb : (build_bench_model1, beginner_model) ∈ bench_table) by left.
    destruct (bench_table_ok _ _ _ _ _ _ Hb E) as (_ & _ & Hl & _).
    exists (beginner_model n), (beginner_ct n 1). split; [exact Hl|]. split.
    + cbn [beginner_model built constraints].
      rewrite list_lookup_fmap. change 1%nat with (Z.to_nat 1).
      by rewrite lookup_range by lia.
    + unfold satisfies; cbn [beginner_ct ct_sense ct_rhs ct_lhs].
      rewrite (expr_value_one_var only_y0 _ (λ j, 1 + (1 + j) `mod` 3)).
      rewrite sumZ_zero; [lia|]. intros j _. unfold only_y0.
      rewrite decide_False by (cbn; lia). lia.
Qed.

End Coverage.

(** ** Calls of the library *)

Section Calls.
Context {F : PyFloat}.
Implicit Types (w : World) (md : ModelObj).
















End Calls.

(** ** Timed blocks *)

Section Timing.
Context {F : PyFloat}.
Implicit Types (w : World) (md : ModelObj) (o : TimerObj).

(** X7: the attribute [msecs] of a timer exists only after its first
    [__exit__].  Reading [tt.msecs] inside the block of a new timer raises
    [AttributeError]; the exit line is still printed and the exception comes
    out of the [with] statement.  Once the statement is over, however the
    block ended, [tt.msecs] reads the value that the last line of the output
    shows. *)
Theorem msecs_only_after_exit (msg0 : string) w :
  let tt := length (timers w) in
  (∃ w', with_ContextTimer msg0 (λ tt, getattr_msecs tt) w
         = (Raise (AttributeError "msecs"), w')
       ∧ stdout w' = stdout w ++
           [exit_message msg0
              (elapsed_msecs (clock w (S (ticks w))) (clock w (ticks w)))])
  ∧ ∀ A (body : handle → M A) r w',
      keeps_timers (body tt) →
      with_ContextTimer msg0 body w = (r, w') →
      ∃ o ms, timers w' !! tt = Some o ∧ msecs o = Some ms
        ∧ getattr_msecs tt w' = (Ok ms, w')
        ∧ last (stdout w') = Some (exit_message (msg o) ms).
Proof.
  intros tt. split.
  - eexists. split.
    + eapply (timed_run msg0 (λ tt, getattr_msecs tt) w
                (Raise (AttributeError "msecs"))
                (set_timers
                   (timers w ++
                      [set_start (clock w (ticks w))
                         {| msg := msg0; start := float_of_int 0;
                            msecs := None |}])
                   (set_ticks (S (ticks w)) w))); [|reflexivity].
      unfold getattr_msecs.
      erewrite bind_ok;
        [| apply getattr_ok; cbn [timers set_timers set_ticks];
           by apply list_lookup_middle].
      reflexivity.
    + reflexivity.
  - intros A body r w' Hk E. rewrite with_ContextTimer_run in E.
    set (o0 := {| msg := msg0; start := float_of_int 0; msecs := None |}) in E.
    set (w1 := set_timers (timers w ++ [o0]) w) in E.
    change (with_as tt body w1 = (r, w')) in E.
    assert (E1 : timers w1 !! tt = Some o0) by (by apply list_lookup_middle).
    destruct (body tt (entered tt o0 w1)) as [rb w2] eqn:Eb.
    assert (is_Some (timers w2 !! tt)) as [o2 E2].
    { apply lookup_lt_is_Some. apply Hk in Eb. apply lookup_lt_Some in E1.
      cbn in Eb. rewrite length_insert in Eb. cbn in E1. lia. }
    rewrite (with_as_run tt body w1 o0 rb w2 o2 E1 Eb E2) in E.
    injection E as _ <-.
    set (ms := elapsed_msecs (clock w2 (ticks w2)) (start o2)).
    assert (E3 : timers (exited tt o2 w2) !! tt = Some (set_msecs ms o2)).
    { cbn [exited timers set_stdout set_timers]. by erewrite lookup_updated. }
    exists (set_msecs ms o2), ms. split; [exact E3|]. split; [done|]. split.
    + unfold getattr_msecs. erewrite bind_ok by (by apply getattr_ok). done.
    + cbn [exited stdout set_stdout]. by rewrite last_snoc.
Qed.

(** X8: a timed build, as in the cells that time one builder.  When the
    statement completes, the output has grown by the one line of the timer,
    the clock was read twice (the builder reads no clock and prints nothing,
    so the time shown is the one between two successive readings), and the
    model the builder returned is the only new one; it has not been ended,
    as nothing in these cells calls [end]. *)
Theorem timed_build_leaves_model (b : Z → M handle) (n : Z) (msg0 : string)
    w tt m w' :
  b ∈ bench_builders →
  with_ContextTimer msg0 (λ _, b n) w = (Ok (tt, Some m), w') →
  let ms := elapsed_msecs (clock w (S (ticks w))) (clock w (ticks w)) in
  ∃ md, models w' = models w ++ [md] ∧ models w' !! m = Some md
    ∧ ended md = false
    ∧ stdout w' = stdout w ++ [exit_message msg0 ms]
    ∧ clock w' = clock w ∧ ticks w' = S (S (ticks w))
    ∧ tt = length (timers w)
    ∧ timers w' = timers w ++
        [{| msg := msg0; start := clock w (ticks w); msecs := Some ms |}].
Proof.
  intros [cf Hb]%bench_builders_table E ms.
  set (o1 := {| msg := msg0; start := clock w (ticks w); msecs := None |}).
  set (w1 := set_timers (timers w ++ [o1]) (set_ticks (S (ticks w)) w)).
  destruct (b n w1) as [rb w2] eqn:Eb.
  destruct (bench_table_run b cf n w1 rb w2 Hb Eb)
    as [(Hc & Ht & Ho & Htm) Hcase].
  cbn [w1 clock ticks stdout timers set_timers set_ticks] in Hc, Ht, Ho, Htm.
  rewrite (timed_run msg0 (λ _, b n) w rb w2 Eb Htm) in E.
  destruct Hcase as [(-> & Hm & _) | (e & -> & _)]; [|discriminate].
  injection E as <- <- <-. cbn [w1 models set_timers set_ticks] in Hm.
  exists (cf n). cbn [exited models stdout clock ticks timers
                      set_stdout set_timers set_ticks].
  rewrite Hm, Hc, Ht, Ho, Htm. split; [done|].
  split; [by apply list_lookup_middle|].
  split.
  { destruct (bench_table_cases b cf Hb) as [-> | (k & c & nm & ign & chk & ->)];
      reflexivity. }
  split; [done|]. split; [done|]. split; [done|]. split; [done|].
  rewrite insert_app_r_alt by lia. by rewrite Nat.sub_diag.
Qed.

Lemma fib_30 : fib 30 = 832040.
Proof.
  change 30 with (Z.of_nat 30). rewrite (proj2 (fib_pair 28)).
  vm_compute. reflexivity.
Qed.

(** X9: the first cell, in any world: it prints the thirtieth number,
    832040, then the line of its timer, and returns; it reads the clock
    twice and leaves the models and the library alone. *)
Theorem fib_cell_run w :
  ∃ w', fib_cell w = (Ok (), w')
    ∧ stdout w' = stdout w ++
        ["fibonacci(30) = 832040";
         exit_message "fibonacci 30"
           (elapsed_msecs (clock w (S (ticks w))) (clock w (ticks w)))]
    ∧ clock w' = clock w ∧ ticks w' = S (S (ticks w))
    ∧ models w' = models w ∧ faults w' = faults w ∧ raised w' = raised w.
Proof.
  set (o1 := set_start (clock w (ticks w))
               {| msg := "fibonacci 30"; start := float_of_int 0;
                  msecs := None |}).
  set (w1 := set_timers (timers w ++ [o1]) (set_ticks (S (ticks w)) w)).
  set (w2 := set_stdout (stdout w1 ++ ["fibonacci(30) = 832040"]) w1).
  exists (exited (length (timers w)) o1 w2). split.
  - unfold fib_cell.
    rewrite (bind_ok _ _ w (length (timers w), Some ())
               (exited (length (timers w)) o1 w2)); [reflexivity|].
    apply (timed_run "fibonacci 30" _ w (Ok ()) w2); [|reflexivity].
    cbv beta zeta. rewrite fib_30. unfold print. fold o1 w1.
    assert (Hs : "fibonacci(" +:+ pretty 30 +:+ ") = " +:+ pretty 832040
                 = "fibonacci(30) = 832040") by (vm_compute; reflexivity).
    by rewrite Hs.
  - cbn [w2 w1 exited stdout clock ticks models faults raised set_stdout
         set_timers set_ticks]. rewrite <- (assoc_L (++)). by repeat split.
Qed.

End Timing.

(** ** What the sampling loop leaves *)

Section Loop.
Context {F : PyFloat}.
Implicit Types (w : World) (md : ModelObj) (o : TimerObj) (g : Globals).

Lemma loop_output nb (l : list (Z * (Z * (PyFunction * string)))) g0 w0 g w :
  (∀ c, c ∈ l → c.2.2 ∈ builders) →
  foldM (sample_flat nb) g0 l w0 = (Ok g, w) →
  clock w = clock w0 ∧ ticks w = (ticks w0 + 2 * length l)%nat
  ∧ stdout w = stdout w0 ++ imap (sample_line nb (r g0) (clock w0) (ticks w0)) l
  ∧ r g = r g0 + Z.of_nat (length l)
  ∧ (NoDup (res_key <$> l) → ∀ k c, l !! k = Some c →
       res g !! res_key c = Some (measured (clock w0) (ticks w0) k))
  ∧ (∀ key, key ∉ res_key <$> l → res g !! key = res g0 !! key).
Proof.
  revert g w. induction l as [|c l IH] using rev_ind; intros g w Hl E.
  - injection E as <- <-. cbn. rewrite app_nil_r, Nat.add_0_r, Z.add_0_r.
    by repeat split.
  - rewrite foldM_app in E. unfold mbind, M_bind in E.
    destruct (foldM (sample_flat nb) g0 l w0) as [[g1|e1] w1] eqn:E1;
      [|discriminate].
    destruct (IH g1 w1) as (Hc & Hk & Ho & Hr & Hres & Hkeep);
      [intros c' Hc'; apply Hl, elem_of_app; by left | reflexivity |].
    cbn [foldM] in E. unfold mbind, M_bind in E.
    destruct (sample_flat nb g1 c w1) as [[g2|e2] w2] eqn:E2; [|discriminate].
    injection E as <- <-.
    destruct c as [s [b [bf lbl]]]. unfold sample_flat in E2. cbn [fst snd] in E2.
    destruct (sample_step nb s g1 b bf lbl w1 g2 w2) as (Hc2 & Hk2 & Ho2 & Hr2 & Hres2 & _);
      [apply (Hl (s, (b, (bf, lbl)))), elem_of_app; right; left | exact E2 |].
    rewrite Hc, Hk in Ho2, Hres2. rewrite Hr in Ho2.
    split; [congruence|]. rewrite length_app. cbn [length].
    split; [lia|]. split.
    { rewrite Ho2, Ho, imap_app, <- (assoc_L (++)). cbn [imap].
      by rewrite Nat.add_0_r. }
    split; [lia|]. split.
    + rewrite fmap_app, NoDup_app. cbn [fmap list_fmap].
      intros (Hnd & Hfresh & _) k c Hlk. rewrite Hres2.
      destruct (decide (k = length l)) as [-> | Hne].
      * rewrite list_lookup_middle in Hlk by done. injection Hlk as <-.
        by rewrite lookup_insert_eq.
      * assert (Hlt : (k < length l)%nat).
        { apply lookup_lt_Some in Hlk. rewrite length_app in Hlk. cbn in Hlk. lia. }
        rewrite lookup_app_l in Hlk by done.
        rewrite lookup_insert_ne.
        -- by apply Hres.
        -- intros Heq. apply (Hfresh (res_key c)).
           ++ apply list_elem_of_fmap. exists c. split; [done|].
              by eapply list_elem_of_lookup_2.
           ++ rewrite <- Heq. unfold res_key. cbn. left.
    + intros key Hk'. rewrite Hres2. rewrite fmap_app in Hk'.
      rewrite lookup_insert_ne;
        [apply Hkeep; intros Hin; apply Hk', elem_of_app; by left|].
      intros <-. apply Hk'. apply elem_of_app. right. unfold res_key. cbn. left.
Qed.

(** [res] after a complete loop over sizes that are not repeated. *)
Lemma sampling_loop_res (szs : list Z) (nb : Z) g0 w0 g w :
  NoDup szs →
  sampling_loop szs builders nb g0 w0 = (Ok g, w) →
  (∀ i s j item, szs !! i = Some s → builders !! j = Some item →
     res g !! (Z.of_nat j, s)
     = Some (measured (clock w0) (ticks w0) (i * length builders + j)))
  ∧ (∀ b s, ¬ (0 ≤ b < Z.of_nat (length builders) ∧ s ∈ szs) →
       res g !! (b, s) = res g0 !! (b, s)).
Proof.
  intros Hnd E. rewrite sampling_loop_flat in E.
  destruct (loop_output nb (combos szs builders) g0 w0 g w)
    as (_ & _ & _ & _ & Hres & Hkeep);
    [intros c Hc; apply combos_builders in Hc; tauto | exact E |].
  split.
  - intros i s j item Hs Hj.
    apply (Hres (combos_keys_NoDup szs builders Hnd) _ (s, (Z.of_nat j, item))).
    by apply combos_lookup.
  - intros b s Hout. apply Hkeep.
    intros (c & Hk' & Hin)%list_elem_of_fmap. apply Hout.
    pose proof (combos_builders _ _ _ Hin) as [Hs _].
    unfold res_key in Hk'. injection Hk' as -> ->. split; [|exact Hs].
    unfold combos in Hin.
    apply list_elem_of_bind in Hin as (s' & (item & Hc' & Hi)%list_elem_of_bind & _).
    apply list_elem_of_singleton in Hc' as ->. cbn [fst snd].
    unfold enumerate in Hi. apply list_elem_of_lookup in Hi as [k Hi].
    rewrite list_lookup_imap in Hi.
    destruct (builders !! k) as [x|] eqn:Ex; [|discriminate]. injection Hi as <-.
    apply lookup_lt_Some in Ex. cbn [fst snd]. lia.
Qed.

(** Every key the later cells read is in [res] after a complete loop. *)
Lemma sampled_keys (szs : list Z) (nb : Z) g0 w0 g w s j item :
  sampling_loop szs builders nb g0 w0 = (Ok g, w) →
  s ∈ szs → builders !! j = Some item →
  is_Some (res g !! (Z.of_nat j, s)).
Proof.
  intros E Hs Hj. rewrite sampling_loop_flat in E.
  destruct (loop_run nb (combos szs builders) g0 w0 g w) as (_ & _ & Hd);
    [intros c Hc; apply combos_builders in Hc; tauto | exact E |].
  apply elem_of_dom. rewrite Hd. apply elem_of_union_r, elem_of_list_to_set.
  apply list_elem_of_lookup in Hs as [i Hi].
  apply list_elem_of_fmap. exists (s, (Z.of_nat j, item)). split; [done|].
  eapply list_elem_of_lookup_2. by apply combos_lookup.
Qed.

(** X10: what a complete run of the sampling loop leaves.  Nothing but the
    timers reads the clock or prints: the loop takes two readings per
    iteration and prints one line per iteration, numbered from [r + 1] on;
    the [k]-th iteration measures the time between the readings [2 k] and
    [2 k + 1].  When no size is repeated, [res] holds under (builder index,
    size) the time of the iteration of that builder at that size, and every
    other key is as before the loop. *)
Theorem sampling_loop_results (szs : list Z) (nb : Z) g0 w0 g w :
  NoDup szs →
  sampling_loop szs builders nb g0 w0 = (Ok g, w) →
  clock w = clock w0
  ∧ ticks w = (ticks w0 + 2 * (length szs * length builders))%nat
  ∧ stdout w = stdout w0 ++
      imap (sample_line nb (r g0) (clock w0) (ticks w0)) (combos szs builders)
  ∧ r g = r g0 + Z.of_nat (length szs * length builders)
  ∧ (∀ i s j item, szs !! i = Some s → builders !! j = Some item →
       res g !! (Z.of_nat j, s)
       = Some (measured (clock w0) (ticks w0) (i * length builders + j)))
  ∧ (∀ b s, ¬ (0 ≤ b < Z.of_nat (length builders) ∧ s ∈ szs) →
       res g !! (b, s) = res g0 !! (b, s)).
Proof.
  intros Hnd E.
  destruct (sampling_loop_res szs nb g0 w0 g w Hnd E) as [Hres Hkeep].
  rewrite sampling_loop_flat in E.
  destruct (loop_output nb (combos szs builders) g0 w0 g w)
    as (Hc & Hk & Ho & Hr & _);
    [intros c Hc; apply combos_builders in Hc; tauto | exact E |].
  rewrite length_combos in Hk, Hr.
  split; [exact Hc|]. split; [exact Hk|]. split; [exact Ho|].
  split; [exact Hr|]. by split.
Qed.

End Loop.

(** ** Reading the results *)

Section ReadersProps.
Context {F : PyFloat} {D : PyFloatDiv F}.
Implicit Types (w : World) (g : Globals).

Lemma mapM_imap {A B} (f : A → M B) (h : nat → A → B) (l : list A) w :
  (∀ i x, l !! i = Some x → f x w = (Ok (h i x), w)) →
  mapM f l w = (Ok (imap h l), w).
Proof.
  revert h. induction l as [|a l IH]; intros h Hf; [reflexivity|].
  cbn [mapM imap]. rewrite (bind_ok _ _ _ _ _ (Hf 0%nat a eq_refl)).
  rewrite (bind_ok _ _ _ _ _ (IH (h ∘ S) (λ i x Hi, Hf (S i) x Hi))).
  reflexivity.
Qed.

Lemma ratios_from (szs : list Z) (nbb : Z) (res0 : gmap (Z * Z) float)
    (acc : gmap Z float) w :
  (∀ s, s ∈ szs →
     is_Some (res0 !! (0, s)) ∧ is_Some (res0 !! (nbb - 1, s))) →
  let body := λ (ratios : gmap Z float) s,
    initial ← getitem res0 (0, s);
    final ← getitem res0 (nbb - 1, s);
    r0 ← truediv initial final;
    mret (<[s := r0]> ratios) in
  (foldM body acc szs w).2 = w
  ∧ ratios_outcome szs nbb res0 acc (foldM body acc szs w).1.
Proof.
  intros Hk body. revert acc.
  induction szs as [|s szs IH]; intros acc.
  - split; [done|]. cbn [foldM fst]. unfold ratios_outcome, mret, M_ret.
    cbn [fst]. split; [|done]. intros s Hs. by apply elem_of_nil in Hs.
  - assert (Hs : s ∈ s :: szs) by left.
    destruct (Hk s Hs) as [[i Hi] [f Hf]].
    assert (Hk' : ∀ s', s' ∈ szs →
              is_Some (res0 !! (0, s')) ∧ is_Some (res0 !! (nbb - 1, s')))
      by (intros; apply Hk; by right).
    cbn [foldM]. unfold mbind, M_bind.
    destruct (fis_zero f) eqn:Ez.
    + assert (Eb : body acc s w = (Raise ZeroDivisionError, w)).
      { unfold body, getitem, truediv. rewrite Hi, Hf.
        unfold mbind, M_bind, mret, M_ret. cbn. by rewrite Ez. }
      rewrite Eb. split; [done|]. cbn [fst]. unfold ratios_outcome.
      split; [done|]. exists s, f. by split.
    + assert (Eb : body acc s w = (Ok (<[s := fdiv i f]> acc), w)).
      { unfold body, getitem, truediv. rewrite Hi, Hf.
        unfold mbind, M_bind, mret, M_ret. cbn. by rewrite Ez. }
      rewrite Eb. destruct (IH Hk' (<[s := fdiv i f]> acc)) as [Hw Ho].
      split; [exact Hw|].
      destruct (foldM body (<[s := fdiv i f]> acc) szs w) as [[ratios|e] w'];
        cbn [fst] in *; unfold ratios_outcome in *.
      * destruct Ho as [Hin Hout]. split.
        -- intros s' Hs'. destruct (decide (s' ∈ szs)) as [Hd|Hd]; [by apply Hin|].
           apply elem_of_cons in Hs' as [-> | ?]; [|done].
           exists i, f. rewrite (Hout s Hd). by rewrite lookup_insert_eq.
        -- intros s' Hs'. rewrite not_elem_of_cons in Hs'. destruct Hs' as [Hne Hs'].
           rewrite (Hout s' Hs'). by rewrite lookup_insert_ne.
      * destruct Ho as (-> & s' & f' & Hs' & Hf' & Hz'). split; [done|].
        exists s', f'. split; [by right | done].
Qed.

(** X11: the points the plotting cell computes after a complete run of the
    sampling loop.  For each builder of the list the comprehension finds
    every key it reads, so no [KeyError] is raised, and yields one point per
    size: the time measured for that builder at that size, divided by 1000.
    For an index that is not one of a builder the first key is missing (when
    [res] was empty before the loop) and [KeyError] is raised. *)
Theorem plot_points_defined (szs : list Z) (nb : Z) g0 w0 g w :
  NoDup szs → fis_zero (float_of_int 1000) = false →
  sampling_loop szs builders nb g0 w0 = (Ok g, w) →
  (∀ j item w1, builders !! j = Some item →
     bts szs (res g) (Z.of_nat j) w1
     = (Ok (imap (λ i _,
              fdiv (measured (clock w0) (ticks w0) (i * length builders + j))
                   (float_of_int 1000)) szs), w1))
  ∧ (∀ b s rest w1, szs = s :: rest → res g0 = ∅ →
       ¬ (0 ≤ b < Z.of_nat (length builders)) →
       bts szs (res g) b w1 = (Raise (KeyError ""), w1)).
Proof.
  intros Hnd Hz E.
  destruct (sampling_loop_res szs nb g0 w0 g w Hnd E) as [Hres Hkeep].
  split.
  - intros j item w1 Hj. unfold bts. apply mapM_imap. intros i s Hs.
    unfold getitem, truediv. rewrite (Hres i s j item Hs Hj).
    unfold mbind, M_bind, mret, M_ret. by rewrite Hz.
  - intros b s rest w1 -> H0 Hb. unfold bts, getitem. cbn [mapM].
    rewrite Hkeep, H0 by tauto. by rewrite lookup_empty.
Qed.

(** X12: the loop that computes the ratios, after a complete run of the
    sampling loop.  It finds every key it reads, so it raises no [KeyError];
    it changes nothing in the world.  It ends in one of two ways: with
    [ratios] holding for each size the time of the first builder divided by
    the time of the last one, none of these last times being zero; or with
    [ZeroDivisionError], one of the last builder's times being zero.  When
    the sampling loop has not run ([res] is empty), the first key is missing
    and [KeyError] is raised. *)
Theorem ratios_after_sampling (szs : list Z) (nb : Z) g0 w0 g w w1 :
  sampling_loop szs builders nb g0 w0 = (Ok g, w) →
  let nb_builders := Z.of_nat (length builders) in
  (ratios_loop szs nb_builders (res g) w1).2 = w1
  ∧ ratios_outcome szs nb_builders (res g) ∅
      (ratios_loop szs nb_builders (res g) w1).1
  ∧ ∀ s rest, szs = s :: rest →
      ratios_loop szs nb_builders ∅ w1 = (Raise (KeyError ""), w1).
Proof.
  intros E nbb.
  destruct (ratios_from szs nbb (res g) ∅ w1) as [Hw Ho].
  - intros s Hs. split.
    + by apply (sampled_keys szs nb g0 w0 g w s 0 _ E Hs eq_refl).
    + by apply (sampled_keys szs nb g0 w0 g w s 5 _ E Hs eq_refl).
  - split; [exact Hw|]. split; [exact Ho|]. by intros s rest ->.
Qed.

End ReadersProps.

(** * The code on concrete inputs *)

#[local] Existing Instance exact_arith.

(** A run whose outcome is known. *)
Lemma run_returns {A} (x : Res A * World) (a : A) :
  x.1 = Ok a → x = (Ok a, x.2).
Proof. destruct x as [r w]. cbn. by intros ->. Qed.

Lemma run_completes {A} (x : Res A * World) (d : A) :
  is_ok x.1 = true → x = (Ok (ok_value d x.1), x.2).
Proof. destruct x as [[a|e] w]; cbn; [done | discriminate]. Qed.

(** The first cell prints the number and then the time. *)
Example fib_cell_output :
  stdout (fib_cell calm_world).2
  = ["fibonacci(30) = 832040"; "<-- fibonacci 30,  time: 4 ms"].
Proof. vm_compute. reflexivity. Qed.

(** C1: at size 2, [build_bench_model1] asks for the constraints
    [1 y_0 >= 0] and [5 y_1 >= 1] and the objective [0 y_0 + 1 y_1], while
    [build_bench_model2] asks for [0 y_0 + 1 y_1 >= 0], [2 y_0 + 3 y_1 >= 1]
    and the objective [1 y_0 + 2 y_1]: the first builder does not build the
    model of the others. *)
Theorem model1_is_another_model :
  math_model <$> models (build_bench_model1 2 calm_world).2 !! 0%nat
  = Some ([BinaryVarType; BinaryVarType],
          [([1; 0], SenseGE, 0); ([0; 5], SenseGE, 1)],
          Some (Minimize, [0; 1]))
  ∧ math_model <$> models (build_bench_model2 2 calm_world).2 !! 0%nat
    = Some ([BinaryVarType; BinaryVarType],
            [([0; 1], SenseGE, 0); ([2; 3], SenseGE, 1)],
            Some (Minimize, [1; 2]))
  ∧ closed_model <$> models (build_bench_model1 2 calm_world).2 !! 0%nat
    = Some true
  ∧ closed_model <$> models (build_bench_model2 2 calm_world).2 !! 0%nat
    = Some true.
Proof. repeat split; vm_compute; reflexivity. Qed.

(** A new timer, entered and exited at once: the clock is read at entry
    and at exit, 3.5 ms apart. *)
Lemma timer_enter_exit_witness :
  timers new_timer_world !! 0%nat = Some new_timer
  ∧ ∃ w1 w2,
      __enter__ 0%nat new_timer_world = (Ok 0%nat, w1)
      ∧ start <$> timers w1 !! 0%nat = Some (calm_clock 0)
      ∧ __exit__ 0%nat [PyNone; PyNone; PyNone] w1 = (Ok PyNone, w2)
      ∧ msecs <$> timers w2 !! 0%nat = Some (Some (inject_Z 4))
      ∧ stdout w2 = ["<-- fibonacci 30,  time: 4 ms"].
Proof.
  split; [reflexivity|].
  destruct (timer_enter_exit 0%nat new_timer new_timer_world eq_refl)
    as ((w1 & o1 & He & Hw1 & Hl1 & _ & Hs1 & _) & _ & Hx).
  destruct (Hx [PyNone; PyNone; PyNone] w1 w1 He eq_refl)
    as (w2 & o2 & Hx2 & Hl2 & _ & Hm2 & Ho2).
  exists w1, w2. split; [exact He|].
  split; [rewrite Hl1; cbn; by rewrite Hs1|].
  split; [exact Hx2|]. split.
  - rewrite Hl2. cbn. f_equal. etransitivity; [exact Hm2|].
    rewrite Hw1. vm_compute. reflexivity.
  - etransitivity; [exact Ho2|]. rewrite Hw1. vm_compute. reflexivity.
Defined.

Lemma failing_block_keeps_timers (tt : handle) : keeps_timers (failing_block tt).
Proof. intros w r w' [= <- <-]. cbn. lia. Qed.

(** A block that raises: the line of the timer is printed after the line of
    the block, and the exception comes out. *)
Lemma timer_exit_on_every_path_witness :
  ∃ w3, with_as 0%nat failing_block timing_world
        = (Raise (Exn "ValueError" "boom"), w3)
      ∧ stdout w3 = ["working"; "<-- fibonacci 30,  time: 4 ms"]
      ∧ msecs <$> timers w3 !! 0%nat = Some (Some (inject_Z 4)).
Proof.
  destruct (timer_exit_on_every_path 0%nat failing_block timing_world
              (mk_is_Some _ _ eq_refl) (failing_block_keeps_timers 0%nat))
    as (o1 & r & w2 & o2 & [= <-] & [= <- <-] & [= <-] & _ & Hw & _).
  eexists. split; [exact Hw|]. split; vm_compute; reflexivity.
Defined.

Lemma build4_in_bench_builders : build_bench_model4 ∈ bench_builders.
Proof. unfold bench_builders. do 4 right. left. Qed.

(** [build_bench_model4] at size 3. *)
Lemma builders_create_n_vars_n_cts_witness :
  ∃ md, models (build_bench_model4 3 calm_world).2 !! 0%nat = Some md
      ∧ length (variables md) = 3%nat
      ∧ var_index <$> variables md = [0; 1; 2]%nat
      ∧ length (constraints md) = 3%nat.
Proof.
  destruct (builders_create_n_vars_n_cts build_bench_model4 3 calm_world
              (build_bench_model4 3 calm_world).1
              (build_bench_model4 3 calm_world).2
              build4_in_bench_builders ltac:(lia)
              (surjective_pairing _)) as [_ H].
  destruct (H 0%nat ltac:(vm_compute; reflexivity))
    as (_ & md & Hl & Hv & _ & Hi & Hc & _ & _).
  exists md. by repeat split.
Defined.





(** [build_bench_model1] at size 3: the objective is [0 y_0 + 1 y_1 + 2 y_2]. *)
Lemma objective_coefficients_witness :
  ∃ e, objective <$> models (build_bench_model1 3 calm_world).2 !! 0%nat
       = Some (Some (Minimize, e))
     ∧ coef e 0 = 0 ∧ coef e 1 = 1 ∧ coef e 2 = 2.
Proof.
  destruct (objective_coefficients 3 calm_world 0%nat
              (build_bench_model1 3 calm_world).2) as [H _].
  destruct (H (run_returns (build_bench_model1 3 calm_world) 0%nat
                ltac:(vm_compute; reflexivity)))
    as (md & e & Hl & Ho & _ & Hk & H0).
  exists e. split; [by rewrite Hl; cbn; rewrite Ho|].
  split; [apply H0; lia|].
  split; [apply (Hk 1); lia | apply (Hk 2); lia].
Defined.

Lemma build5_in_bench_builders : build_bench_model5 ∈ bench_builders.
Proof. unfold bench_builders. do 5 right. left. Qed.

(** [build_bench_model5] at size 2, in an empty world and in a busy one. *)
Lemma builders_deterministic_witness :
  ∃ md, models (build_bench_model5 2 calm_world).2 !! 0%nat = Some md
      ∧ models (build_bench_model5 2 busy_world).2 !! 1%nat = Some md
      ∧ stdout (build_bench_model5 2 busy_world).2 = stdout busy_world.
Proof.
  destruct (builders_deterministic build_bench_model5 2
              calm_world busy_world 0%nat 1%nat
              (build_bench_model5 2 calm_world).2
              (build_bench_model5 2 busy_world).2
              build5_in_bench_builders
              (run_returns (build_bench_model5 2 calm_world) 0%nat
                 ltac:(vm_compute; reflexivity))
              (run_returns (build_bench_model5 2 busy_world) 1%nat
                 ltac:(vm_compute; reflexivity)))
    as (md & H1 & H2 & _ & _ & _ & (_ & _ & Ho & _) & _).
  exists md. split; [exact H1|]. split; [exact H2 | exact Ho].
Defined.



(** ** The further properties on concrete inputs *)

#[local] Existing Instance exact_div.

Lemma build3_in_bench_builders : build_bench_model3 ∈ bench_builders.
Proof. unfold bench_builders. do 3 right. left. Qed.

Lemma build1_in_bench_builders : build_bench_model1 ∈ bench_builders.
Proof. unfold bench_builders. left. Qed.

(** [build_bench_model3] at size -2. *)
Lemma builders_at_nonpositive_size_witness :
  ∃ md, models (build_bench_model3 (-2) calm_world).2 !! 0%nat = Some md
      ∧ variables md = [] ∧ constraints md = []
      ∧ objective md = Some (Minimize, []).
Proof.
  exact (builders_at_nonpositive_size build_bench_model3 (-2) calm_world 0%nat
           (build_bench_model3 (-2) calm_world).2
           build3_in_bench_builders ltac:(lia)
           (run_returns (build_bench_model3 (-2) calm_world) 0%nat
              ltac:(vm_compute; reflexivity))).
Defined.

(** [build_bench_model2] at size 2 names its variables and constraints. *)
Lemma builders_names_witness :
  ∃ md, models (build_bench_model2 2 calm_world).2 !! 0%nat = Some md
      ∧ var_name <$> variables md = [Some "y_0"; Some "y_1"]
      ∧ ct_name <$> constraints md = [Some "ct_0"; Some "ct_1"].
Proof.
  destruct (builders_names build_bench_model2 2 calm_world 0%nat
              (build_bench_model2 2 calm_world).2
              (run_returns (build_bench_model2 2 calm_world) 0%nat
                 ltac:(vm_compute; reflexivity))) as [H _].
  destruct (H ltac:(right; left)) as (md & Hl & Hv & Hc & _).
  exists md. split; [exact Hl|].
  split; (etransitivity; [eassumption | vm_compute; reflexivity]).
Defined.

(** [build_bench_model1] at size 2: every variable at 1 is feasible, only
    [y_0] at 1 is not. *)
Lemma benchmark_models_feasible_witness :
  (∃ md, models (build_bench_model1 2 calm_world).2 !! 0%nat = Some md
       ∧ ∀ c, c ∈ constraints md → satisfies all_ones c)
  ∧ (∃ md c, models (build_bench_model1 2 calm_world).2 !! 0%nat = Some md
       ∧ constraints md !! 1%nat = Some c ∧ ¬ satisfies only_y0 c).
Proof.
  destruct (benchmark_models_feasible build_bench_model1 2 calm_world 0%nat
              (build_bench_model1 2 calm_world).2
              (run_returns (build_bench_model1 2 calm_world) 0%nat
                 ltac:(vm_compute; reflexivity))) as (H1 & _ & H3).
  split; [exact (H1 build1_in_bench_builders) | exact (H3 eq_refl ltac:(lia))].
Defined.



(** A block that raises, timed by a new timer: [msecs] can be read after
    the statement. *)
Lemma msecs_only_after_exit_witness :
  ∃ o ms, timers (with_ContextTimer "t" failing_block calm_world).2 !! 0%nat
          = Some o
        ∧ msecs o = Some ms
        ∧ last (stdout (with_ContextTimer "t" failing_block calm_world).2)
          = Some (exit_message (msg o) ms).
Proof.
  destruct (msecs_only_after_exit "t" calm_world) as [_ H].
  destruct (H unit failing_block _ _ (failing_block_keeps_timers 0%nat)
              (surjective_pairing _)) as (o & ms & Ho & Hm & _ & Hl).
  by exists o, ms.
Defined.

(** The cell that times [build_bench_model1] at size 3. *)
Lemma timed_build_leaves_model_witness :
  let cell := with_ContextTimer "bench1 size=3" (λ _, build_bench_model1 3)
                calm_world in
  ∃ md, models cell.2 = [md] ∧ ended md = false
      ∧ stdout cell.2 = ["<-- bench1 size=3,  time: 4 ms"]
      ∧ ticks cell.2 = 2%nat.
Proof.
  intros cell.
  destruct (timed_build_leaves_model build_bench_model1 3 "bench1 size=3"
              calm_world 0%nat 0%nat cell.2 build1_in_bench_builders
              (run_returns cell (0%nat, Some 0%nat)
                 ltac:(vm_compute; reflexivity)))
    as (md & Hm & _ & He & Ho & _ & Ht & _).
  exists md. split; [exact Hm|]. split; [exact He|].
  split; [etransitivity; [exact Ho | vm_compute; reflexivity] | exact Ht].
Defined.

Lemma thousand_not_zero :
  @fis_zero exact_arith exact_div (float_of_int 1000) = false.
Proof. vm_compute. reflexivity. Qed.

Lemma sampled_ok : sampled = (Ok (ok_value globals0 sampled.1), sampled.2).
Proof. apply run_completes. vm_compute. reflexivity. Qed.

Lemma NoDup_2_3 : NoDup [2; 3].
Proof. apply NoDup_cons. split; [|apply NoDup_singleton]. by intros [= ]%list_elem_of_singleton. Qed.

(** The loop over the sizes 2 and 3: twelve iterations, the last one the
    sixth builder at size 3.  After seven of them, and after all of them,
    every model there is has been ended and is empty; at the end [res] has
    the key (5, 3). *)
Lemma sampling_loop_ends_models_witness :
  length (combos [2; 3] builders) = 12%nat
  ∧ (∃ item, combos [2; 3] builders !! 11%nat = Some (3, (5, item)))
  ∧ Forall (λ md, ended md = true ∧ variables md = [] ∧ constraints md = [])
      (models (foldM (sample_flat 12) globals0
                 (take 7 (combos [2; 3] builders)) calm_world).2)
  ∧ length (models sampled.2) = 12%nat
  ∧ Forall (λ md, ended md = true ∧ variables md = [] ∧ constraints md = [])
      (models sampled.2)
  ∧ (5, 3) ∈ dom (res (ok_value globals0 sampled.1)).
Proof.
  destruct (sampling_loop_ends_models [2; 3] 12 globals0 calm_world)
    as (Hlen & Hlk & _ & _ & _ & Hinv & Hend).
  split; [exact Hlen|].
  split; [eexists; exact (Hlk 1%nat 3 5%nat _ eq_refl eq_refl)|].
  split.
  { destruct (Hinv (take 7 (combos [2; 3] builders))
                (drop 7 (combos [2; 3] builders))
                _ _ (eq_sym (take_drop 7 _))
                (run_completes
                   (foldM (sample_flat 12) globals0
                      (take 7 (combos [2; 3] builders)) calm_world)
                   globals0 ltac:(vm_compute; reflexivity)))
      as ((new & Hm & _ & Hall) & _).
    rewrite Hm. exact Hall. }
  destruct (Hend _ _ sampled_ok) as ((new & Hm & Hl & Hall) & _ & Hdom).
  split; [rewrite Hm; exact Hl|]. split; [rewrite Hm; exact Hall|].
  apply Hdom. right. split; [lia | right; left].
Defined.

(** The loop over the sizes 2 and 3: 24 readings of the clock, and the
    time of the last builder at size 3 is the one of the twelfth block. *)
Lemma sampling_loop_results_witness :
  ticks sampled.2 = 24%nat
  ∧ r (ok_value globals0 sampled.1) = 12
  ∧ res (ok_value globals0 sampled.1) !! (5, 3) = Some (inject_Z 4).
Proof.
  destruct (sampling_loop_results [2; 3] 12 globals0 calm_world _ _
              NoDup_2_3 sampled_ok) as (_ & Hk & _ & Hr & Hres & _).
  split; [exact Hk|]. split; [exact Hr|].
  etransitivity; [exact (Hres 1%nat 3 5%nat _ eq_refl eq_refl)|].
  vm_compute. reflexivity.
Defined.

(** The points plotted for the first builder after that loop. *)
Lemma plot_points_defined_witness :
  (bts [2; 3] (res (ok_value globals0 sampled.1)) 0 calm_world).1
  = Ok [(4 # 1000)%Q; (4 # 1000)%Q].
Proof.
  destruct (plot_points_defined [2; 3] 12 globals0 calm_world _ _
              NoDup_2_3 thousand_not_zero sampled_ok) as [H _].
  etransitivity; [exact (f_equal fst (H 0%nat _ calm_world eq_refl))|].
  vm_compute. reflexivity.
Defined.

(** The ratios after that loop. *)
Lemma ratios_after_sampling_witness :
  ratios_outcome [2; 3] 6 (res (ok_value globals0 sampled.1)) ∅
    (ratios_loop [2; 3] 6 (res (ok_value globals0 sampled.1)) calm_world).1.
Proof.
  exact (proj1 (proj2 (ratios_after_sampling [2; 3] 12 globals0 calm_world _ _
                         calm_world sampled_ok))).
Defined.

(** [fib] below 1, and between 5 and 12. *)
Lemma fib_monotone_witness :
  1 ≤ fib (-7) ∧ fib (-7) ≤ fib 12 ∧ fib 5 < fib 6.
Proof.
  destruct fib_monotone as (H1 & H2 & H3).
  split; [apply H1|]. split; [apply H2; lia | apply H3; lia].
Defined.
